(** * Delta-based scoring and weight publication (validator/weights.py)

    A shallow embedding of [WeightsManager]: the delta engine
    ([_get_delta_node_data]), the score transform ([apply_kurtosis_custom]),
    the weight calculator ([calculate_weights]) and the publisher
    ([set_weights]), with the properties of the specification stated and
    proved (or refuted) over it.

    Conventions of the embedding.
    - Python [int] is [Z]; numpy's float64 is the kernel's binary64 [float].
    - A slot id ([NodeData.uid], [Node.node_id]) is dynamically typed in the
      source: it is compared with [None], used as a [dict] key and passed to a
      sort key that tests [isinstance(x, str)].  It is the type [Uid].
    - A Python [dict] is an association list in insertion order.
    - Calls that leave the process (ledger, node manager, [asyncio.sleep]) and
      [logger.warning]/[logger.error] are events of a trace; what an external
      call answers is given by an environment that may look at the whole
      history.  [logger.debug]/[logger.info] are not traced.
    - A raised exception is the [Raise] case of a [result]; a loop or a call
      that meets one is left at once, with the effects made so far. *)

From Stdlib Require Import ZArith List String Ascii Bool Lia Floats.
From Stdlib Require Import Sorting.Sorted Sorting.Permutation.
Import ListNotations.

Local Open Scope string_scope.
Local Open Scope list_scope.
Local Open Scope Z_scope.

Set Implicit Arguments.
(* Decimal literals such as 1e-8 denote the nearest double, as in Python. *)
Set Warnings "-inexact-float".

(** ** Data model *)

(** A slot id as Python sees it: [None], an [int] or a [str]. *)
Inductive Uid : Type :=
| UidNone
| UidInt (n : Z)
| UidStr (s : string).

Definition Uid_eqb (a b : Uid) : bool :=
  match a, b with
  | UidNone, UidNone => true
  | UidInt x, UidInt y => Z.eqb x y
  | UidStr x, UidStr y => String.eqb x y
  | _, _ => false
  end.

Definition is_None (u : Uid) : bool :=
  match u with UidNone => true | _ => false end.

(** [interfaces.types.NodeData]: a telemetry snapshot, and also a delta
    record (the source uses one class for both). *)
Record NodeData : Type := mkNodeData {
  hotkey : string;
  uid : Uid;
  worker_id : string;
  timestamp : Z;
  boot_time : Z;
  last_operation_time : Z;
  current_time : Z;
  twitter_auth_errors : Z;
  twitter_errors : Z;
  twitter_ratelimit_errors : Z;
  twitter_returned_other : Z;
  twitter_returned_profiles : Z;
  twitter_returned_tweets : Z;
  twitter_scrapes : Z;
  web_errors : Z;
  web_success : Z
}.

(** An entry of [metagraph.nodes]. *)
Record Node : Type := mkNode {
  node_id : Uid;
  node_hotkey : string
}.

(** [validator.telemetry_storage], as the two queries the delta engine makes. *)
Record TelemetryStorage : Type := mkTelemetryStorage {
  get_all_hotkeys_with_telemetry : list string;
  get_telemetry_by_hotkey : string -> list NodeData
}.

(** What [WeightsManager] reads of its validator. *)
Record Validator : Type := mkValidator {
  metagraph_nodes : list (string * Node);
  telemetry_storage : TelemetryStorage;
  keypair_ss58_address : string
}.

(** ** Dictionaries in insertion order *)

Section Dict.
Variables (K V : Type) (eqb : K -> K -> bool).

(** [d[k]], [None] standing for [KeyError]. *)
Fixpoint dict_get (k : K) (d : list (K * V)) : option V :=
  match d with
  | [] => None
  | (k', v) :: d' => if eqb k' k then Some v else dict_get k d'
  end.

(** [d[k] = v]: an existing key keeps its position. *)
Fixpoint dict_set (k : K) (v : V) (d : list (K * V)) : list (K * V) :=
  match d with
  | [] => [(k, v)]
  | (k', v') :: d' =>
      if eqb k' k then (k', v) :: d' else (k', v') :: dict_set k v d'
  end.

Definition dict_keys (d : list (K * V)) : list K := map fst d.
End Dict.

(** ** Delta engine *)

(** [sorted(node_telemetry, key=lambda x: x.timestamp, reverse=True)]:
    Python's sort is stable, also under [reverse=True].  An element is
    inserted in front of the first one whose timestamp is not greater. *)
Fixpoint insert_desc (x : NodeData) (s : list NodeData) : list NodeData :=
  match s with
  | [] => [x]
  | y :: s' =>
      if timestamp x <? timestamp y then y :: insert_desc x s' else x :: s
  end.

Definition sorted_desc (l : list NodeData) : list NodeData :=
  fold_right insert_desc [] l.

(** The record built in the [len(node_telemetry) >= 2] branch. *)
Definition delta_of (hk : string) (latest oldest : NodeData) : NodeData :=
  {| hotkey := hk;
     uid := uid latest;
     worker_id := worker_id latest;
     timestamp := timestamp latest;
     boot_time := boot_time latest - boot_time oldest;
     last_operation_time :=
       last_operation_time latest - last_operation_time oldest;
     current_time := current_time latest - current_time oldest;
     twitter_auth_errors :=
       twitter_auth_errors latest - twitter_auth_errors oldest;
     twitter_errors := twitter_errors latest - twitter_errors oldest;
     twitter_ratelimit_errors :=
       twitter_ratelimit_errors latest - twitter_ratelimit_errors oldest;
     twitter_returned_other :=
       twitter_returned_other latest - twitter_returned_other oldest;
     twitter_returned_profiles :=
       twitter_returned_profiles latest - twitter_returned_profiles oldest;
     twitter_returned_tweets :=
       twitter_returned_tweets latest - twitter_returned_tweets oldest;
     twitter_scrapes := twitter_scrapes latest - twitter_scrapes oldest;
     web_errors := web_errors latest - web_errors oldest;
     web_success := web_success latest - web_success oldest |}.

(** The record built in both "empty telemetry" places. *)
Definition zero_record (hk : string) (u : Uid) : NodeData :=
  {| hotkey := hk; uid := u; worker_id := ""; timestamp := 0;
     boot_time := 0; last_operation_time := 0; current_time := 0;
     twitter_auth_errors := 0; twitter_errors := 0;
     twitter_ratelimit_errors := 0; twitter_returned_other := 0;
     twitter_returned_profiles := 0; twitter_returned_tweets := 0;
     twitter_scrapes := 0; web_errors := 0; web_success := 0 |}.

(** The first loop: [for node in metagraph.nodes] walks the keys and reads
    each entry back through the dictionary. *)
Definition all_hotkeys_of (nodes : list (string * Node)) : list (Uid * string) :=
  flat_map
    (fun kv =>
       match dict_get String.eqb (fst kv) nodes with
       | Some node_data => [(node_id node_data, node_hotkey node_data)]
       | None => []
       end)
    nodes.

(** [next((uid for uid, hk in all_hotkeys if hk == hotkey), 0)]. *)
Fixpoint find_uid (all_hotkeys : list (Uid * string)) (hk : string) : Uid :=
  match all_hotkeys with
  | [] => UidInt 0
  | (u, hk') :: rest => if String.eqb hk' hk then u else find_uid rest hk
  end.

(** [hotkey in processed_hotkeys]. *)
Definition in_set (hk : string) (s : list string) : bool :=
  existsb (String.eqb hk) s.

(** The body of the loop over [hotkeys_to_score]; the state is
    [(delta_node_data, processed_hotkeys)]. *)
Definition process_hotkey (st : TelemetryStorage) (all_hotkeys : list (Uid * string))
    (acc : list NodeData * list string) (hk : string)
  : list NodeData * list string :=
  let node_telemetry := get_telemetry_by_hotkey st hk in
  if (2 <=? List.length node_telemetry)%nat then
    let sorted_telemetry := sorted_desc node_telemetry in
    match sorted_telemetry with
    | latest :: _ =>
        let oldest := last sorted_telemetry latest in
        (fst acc ++ [delta_of hk latest oldest], hk :: snd acc)
    | [] => acc (* not reached: the sorted list has two elements or more *)
    end
  else
    (fst acc ++ [zero_record hk (find_uid all_hotkeys hk)], hk :: snd acc).

(** The body of the last loop, over [all_hotkeys]. *)
Definition add_missing (processed_hotkeys : list string)
    (delta_node_data : list NodeData) (e : Uid * string) : list NodeData :=
  if in_set (snd e) processed_hotkeys then delta_node_data
  else delta_node_data ++ [zero_record (snd e) (fst e)].

Definition _get_delta_node_data (v : Validator) : list NodeData :=
  let hotkeys_to_score := get_all_hotkeys_with_telemetry (telemetry_storage v) in
  let all_hotkeys := all_hotkeys_of (metagraph_nodes v) in
  let '(delta_node_data, processed_hotkeys) :=
    fold_left (process_hotkey (telemetry_storage v) all_hotkeys)
              hotkeys_to_score ([], []) in
  fold_left (add_missing processed_hotkeys) all_hotkeys delta_node_data.

(** ** Score transform *)

(** numpy's reductions and transcendental functions, as the source calls
    them.  They are parameters: nothing below depends on how numpy rounds. *)
Record NumPy : Type := mkNumPy {
  np_mean : list float -> float;
  np_std : list float -> float;
  np_exp : float -> float;
  np_tanh : float -> float;
  np_percentile : list float -> float -> float;
  np_min : list float -> float;
  np_max : list float -> float
}.

Section ScoreTransform.
Variable np : NumPy.
Local Open Scope float_scope.

(** [a op b] on two arrays of one shape. *)
Definition map2 (f : float -> float -> float) (a b : list float) : list float :=
  map (fun p => f (fst p) (snd p)) (combine a b).

Definition apply_kurtosis_custom (x : list float)
    (top_percentile reward_factor steepness center_sensitivity
       boost_factor : float) : list float :=
  if Nat.eqb (List.length x) 0 || forallb (fun xi => xi =? 0) x then
    map (fun _ => 0) x
  else
    let mu := np_mean np x in
    let sigma := np_std np x in
    let x_centered := map (fun xi => (xi - mu) / (sigma + 1e-8)) x in
    let y :=
      map (fun c => 1 / (1 + np_exp np (- steepness * (c - center_sensitivity))))
          x_centered in
    let y := map2 (fun yi c => yi + boost_factor * np_tanh np c) y x_centered in
    let threshold := np_percentile np x top_percentile in
    let y :=
      map2 (fun yi xi => if threshold <=? xi then yi * (1 + reward_factor) else yi)
           y x in
    map (fun yi => (yi - np_min np y) / (np_max np y - np_min np y + 1e-8)) y.

(** The call with the default arguments. *)
Definition apply_kurtosis_default (x : list float) : list float :=
  apply_kurtosis_custom x 90 0.4 2.0 0.5 0.2.
End ScoreTransform.

(** ** Exceptions, events and the monad of the effectful code *)

Inductive exn : Type :=
| KeyError (key : string)
| TypeError
| OverflowError
| OtherError (name : string).

Definition is_KeyError (e : exn) : bool :=
  match e with KeyError _ => true | _ => false end.

Inductive result (A : Type) : Type :=
| Ok (a : A)
| Raise (e : exn).
Arguments Ok {A} a.
Arguments Raise {A} e.

Inductive level : Type := WARNING | ERROR.

(** The messages of the [logger.warning] and [logger.error] calls. *)
Inductive log_msg : Type :=
| NoNodeData
| NodeNotInMetagraph (hk : string)
| FailedAttempt (n : nat)
| ErrorOnAttempt (n : nat) (e : exn)
| FailedAllAttempts.

Inductive event : Type :=
| Log (l : level) (m : log_msg)
| SendScoreReport (hk : string) (score : float) (telemetry : NodeData)
| Sleep (seconds : Z)
| GetSubstrate
| BlocksSinceLastUpdate (validator_node_id : Uid)
| MinIntervalToSetWeights
| SetNodeWeights (node_ids : list Uid) (node_weights : list float)
                 (validator_node_id : Uid).

Definition trace : Type := list event.

(** The collaborators: what each call answers, given the history so far. *)
Record World : Type := mkWorld {
  send_score_report : trace -> string -> float -> NodeData -> option exn;
  get_substrate : trace -> option exn;
  blocks_since_last_update : trace -> Uid -> result (option Z);
  min_interval_to_set_weights : trace -> result Z;
  set_node_weights : trace -> list Uid -> list float -> Uid -> result bool
}.

Section Monad.
Variable S : Type.

Definition M (A : Type) : Type := S -> S * result A.

Definition ret {A} (a : A) : M A := fun s => (s, Ok a).

Definition raise {A} (e : exn) : M A := fun s => (s, Raise e).

Definition bind {A B} (m : M A) (k : A -> M B) : M B :=
  fun s =>
    match m s with
    | (s', Ok a) => k a s'
    | (s', Raise e) => (s', Raise e)
    end.

(** [try: body / except C as e: handler e], [catches] deciding the class. *)
Definition try_except {A} (body : M A) (catches : exn -> bool)
    (handler : exn -> M A) : M A :=
  fun s =>
    match body s with
    | (s', Raise e) => if catches e then handler e s' else (s', Raise e)
    | r => r
    end.

Definition modify (f : S -> S) : M unit := fun s => (f s, Ok tt).
End Monad.

Arguments ret {S A} a.
Arguments raise {S A} e.
Arguments bind {S A B} m k.
Arguments try_except {S A} body catches handler.
Arguments modify {S} f.

Notation "x <- m ;; k" := (bind m (fun x => k))
  (at level 61, m at next level, right associativity).
Notation "m ;;; k" := (bind m (fun _ => k))
  (at level 61, right associativity).

(** [for x in l: body x], left on the first exception. *)
Fixpoint for_each {S A} (l : list A) (body : A -> M S unit) : M S unit :=
  match l with
  | [] => ret tt
  | x :: l' => body x ;;; for_each l' body
  end.

(** [enumerate(l)]. *)
Definition enumerate {A} (l : list A) : list (nat * A) :=
  combine (seq 0 (List.length l)) l.

(** [[f(x) for x in l]], left on the first exception. *)
Fixpoint traverse {A B} (f : A -> result B) (l : list A) : result (list B) :=
  match l with
  | [] => Ok []
  | x :: l' =>
      match f x with
      | Raise e => Raise e
      | Ok b =>
          match traverse f l' with
          | Raise e => Raise e
          | Ok bs => Ok (b :: bs)
          end
      end
  end.

(** [float(n)] of an [int]: the nearest double, or [OverflowError]. *)
Definition py_float (n : Z) : result float :=
  let f := SF2Prim (binary_normalize 53 1024 n 0 false) in
  if is_infinity f then Raise OverflowError else Ok f.

(** ** Weight calculator *)

(** The key of the final sort:
    [lambda x: int(x) if isinstance(x, str) and x.isdigit() else x].
    Strings are ASCII. *)
Inductive sort_key : Type :=
| KNone
| KInt (n : Z)
| KStr (s : string).

Definition is_digit (c : ascii) : bool :=
  ((48 <=? nat_of_ascii c) && (nat_of_ascii c <=? 57))%nat.

Definition isdigit (s : string) : bool :=
  negb (String.eqb s "") && forallb is_digit (list_ascii_of_string s).

(** [int(s)] of a string of decimal digits. *)
Definition int_of_digits (s : string) : Z :=
  fold_left (fun acc c => 10 * acc + (Z.of_nat (nat_of_ascii c) - 48))
            (list_ascii_of_string s) 0.

Definition uid_sort_key (x : Uid) : sort_key :=
  match x with
  | UidNone => KNone
  | UidInt n => KInt n
  | UidStr s => if isdigit s then KInt (int_of_digits s) else KStr s
  end.

(** [a < b] on keys; [None] is the [TypeError] of comparing an [int] with a
    [str], or anything with [None]. *)
Definition key_lt (a b : sort_key) : option bool :=
  match a, b with
  | KInt x, KInt y => Some (x <? y)
  | KStr x, KStr y => Some (String.ltb x y)
  | _, _ => None
  end.

(** [sorted(keys, key=uid_sort_key)]: a stable ascending sort that uses [<]
    only.  An element is inserted in front of the first one that is not
    smaller; a comparison that raises makes the sort raise. *)
Fixpoint insert_by_key (x : Uid) (s : list Uid) : option (list Uid) :=
  match s with
  | [] => Some [x]
  | y :: s' =>
      match key_lt (uid_sort_key y) (uid_sort_key x) with
      | None => None
      | Some true => option_map (cons y) (insert_by_key x s')
      | Some false => Some (x :: s)
      end
  end.

Fixpoint sorted_uids (l : list Uid) : option (list Uid) :=
  match l with
  | [] => Some []
  | x :: l' =>
      match sorted_uids l' with
      | None => None
      | Some s => insert_by_key x s
      end
  end.

(** The state of [calculate_weights]: its local dictionary and the trace. *)
Record calc_state : Type := mkCalcState {
  miner_scores : list (Uid * float);
  events : trace
}.

Section Calculate.
Variables (np : NumPy) (w : World) (v : Validator).

Definition log_calc (l : level) (m : log_msg) : M calc_state unit :=
  modify (fun s => {| miner_scores := miner_scores s;
                      events := events s ++ [Log l m] |}).

(** [miner_scores[uid] = score]. *)
Definition set_score (u : Uid) (score : float) : M calc_state unit :=
  modify (fun s => {| miner_scores := dict_set Uid_eqb u score (miner_scores s);
                      events := events s |}).

(** [await self.validator.node_manager.send_score_report(...)]. *)
Definition call_send_score_report (hk : string) (score : float)
    (node : NodeData) : M calc_state unit :=
  fun s =>
    let s' := {| miner_scores := miner_scores s;
                 events := events s ++ [SendScoreReport hk score node] |} in
    match send_score_report w (events s) hk score node with
    | None => (s', Ok tt)
    | Some e => (s', Raise e)
    end.

(** [self.validator.metagraph.nodes[hk].node_id]. *)
Definition lookup_node_id {S} (hk : string) : M S Uid :=
  match dict_get String.eqb hk (metagraph_nodes v) with
  | Some node => ret (node_id node)
  | None => raise (KeyError hk)
  end.

Definition resolve_uid {S} (simulation : bool) (node : NodeData) : M S Uid :=
  if simulation then ret (uid node) else lookup_node_id (hotkey node).

(** [float((web_successes[idx] + tweets[idx] + profiles[idx]) / 3)]; the
    three arrays have one entry per record ([apply_kurtosis_length]). *)
Definition combined_score (web_successes tweets profiles : list float)
    (idx : nat) : float :=
  ((nth idx web_successes 0 + nth idx tweets 0 + nth idx profiles 0) / 3)%float.

(** The body of [for idx, node in enumerate(delta_node_data)]. *)
Definition score_node (simulation : bool)
    (web_successes tweets profiles : list float)
    (p : nat * NodeData) : M calc_state unit :=
  let '(idx, node) := p in
  try_except
    (u <- resolve_uid simulation node ;;
     if is_None u then ret tt
     else
       let score := combined_score web_successes tweets profiles idx in
       set_score u score ;;;
       call_send_score_report (hotkey node) score node)
    is_KeyError
    (fun _ => log_calc ERROR (NodeNotInMetagraph (hotkey node))).

(** [[float(miner_scores[uid]) for uid in uids]]. *)
Definition weights_of (scores : list (Uid * float)) (uids : list Uid)
  : result (list float) :=
  traverse
    (fun u =>
       match dict_get Uid_eqb u scores with
       | Some x => Ok x
       | None => Raise (KeyError "")
       end)
    uids.

(** What follows the loop: the sort and the two result lists. *)
Definition finish : M calc_state (list Uid * list float) :=
  fun s =>
    match sorted_uids (dict_keys (miner_scores s)) with
    | None => (s, Raise TypeError)
    | Some uids =>
        match weights_of (miner_scores s) uids with
        | Raise e => (s, Raise e)
        | Ok weights => (s, Ok (uids, weights))
        end
    end.

(** The three [np.array([float(...) for node in delta_node_data])]. *)
Definition extract_metrics (delta_node_data : list NodeData)
  : result (list float * list float * list float) :=
  match traverse (fun node => py_float (web_success node)) delta_node_data,
        traverse (fun node => py_float (twitter_returned_tweets node))
                 delta_node_data,
        traverse (fun node => py_float (twitter_returned_profiles node))
                 delta_node_data with
  | Ok web_successes, Ok tweets, Ok profiles =>
      Ok (web_successes, tweets, profiles)
  | Raise e, _, _ => Raise e
  | _, Raise e, _ => Raise e
  | _, _, Raise e => Raise e
  end.

Definition calculate_weights_body (delta_node_data : list NodeData)
    (simulation : bool) : M calc_state (list Uid * list float) :=
  match delta_node_data with
  | [] => log_calc WARNING NoNodeData ;;; ret ([], [])
  | _ :: _ =>
      match extract_metrics delta_node_data with
      | Raise e => raise e
      | Ok (web_successes, tweets, profiles) =>
          let web_successes := apply_kurtosis_default np web_successes in
          let tweets := apply_kurtosis_default np tweets in
          let profiles := apply_kurtosis_default np profiles in
          for_each (enumerate delta_node_data)
                   (score_node simulation web_successes tweets profiles) ;;;
          finish
      end
  end.

(** [calculate_weights], as seen by a caller: [miner_scores] is local. *)
Definition calculate_weights (delta_node_data : list NodeData)
    (simulation : bool) : M trace (list Uid * list float) :=
  fun t =>
    let '(s, r) :=
      calculate_weights_body delta_node_data simulation
        {| miner_scores := []; events := t |} in
    (events s, r).
End Calculate.

(** ** Publisher *)

Section Publisher.
Variables (np : NumPy) (w : World) (v : Validator).

Definition emit (e : event) : M trace unit := modify (fun t => t ++ [e]).

Definition log (l : level) (m : log_msg) : M trace unit := emit (Log l m).

(** [await asyncio.sleep(seconds)]. *)
Definition sleep (seconds : Z) : M trace unit := emit (Sleep seconds).

(** A call to the ledger client: the event, then the answer. *)
Definition call {A} (e : event) (answer : trace -> result A) : M trace A :=
  fun t => (t ++ [e], answer t).

Definition call_get_substrate : M trace unit :=
  call GetSubstrate
       (fun t => match get_substrate w t with
                 | None => Ok tt
                 | Some e => Raise e
                 end).

Definition call_set_node_weights (uids : list Uid) (scores : list float)
    (validator_node_id : Uid) : M trace bool :=
  call (SetNodeWeights uids scores validator_node_id)
       (fun t => set_node_weights w t uids scores validator_node_id).

(** The body of [for attempt in range(3)]; [true] is the [return] of the
    successful branch. *)
Definition attempt_body (uids : list Uid) (scores : list float)
    (validator_node_id : Uid) (attempt : nat) : M trace bool :=
  try_except
    (success <- call_set_node_weights uids scores validator_node_id ;;
     if success then ret true
     else
       log ERROR (FailedAttempt (attempt + 1)) ;;;
       (if (attempt <? 2)%nat then sleep 10 else ret tt) ;;;
       ret false)
    (fun _ => true)
    (fun e =>
       log ERROR (ErrorOnAttempt (attempt + 1) e) ;;;
       (if (attempt <? 2)%nat then sleep 10 else ret tt) ;;;
       ret false).

Fixpoint attempts_loop (uids : list Uid) (scores : list float)
    (validator_node_id : Uid) (attempts : list nat) : M trace bool :=
  match attempts with
  | [] => ret false
  | attempt :: rest =>
      returned <- attempt_body uids scores validator_node_id attempt ;;
      if returned then ret true
      else attempts_loop uids scores validator_node_id rest
  end.

(** From [for attempt in range(3)] to the end of [set_weights]. *)
Definition submit (uids : list Uid) (scores : list float)
    (validator_node_id : Uid) : M trace unit :=
  returned <- attempts_loop uids scores validator_node_id (seq 0 3) ;;
  if returned then ret tt else log ERROR FailedAllAttempts.

(** The interval rule: one test, one suspension. *)
Definition wait_for_interval (blocks_since_update : option Z)
    (min_interval : Z) : M trace unit :=
  match blocks_since_update with
  | Some b =>
      if b <? min_interval then
        let wait_blocks := min_interval - b in
        let wait_seconds := wait_blocks * 12 in
        sleep wait_seconds
      else ret tt
  | None => ret tt
  end.

Definition set_weights : M trace unit :=
  call_get_substrate ;;;
  validator_node_id <- lookup_node_id v (keypair_ss58_address v) ;;
  blocks_since_update <-
    call (BlocksSinceLastUpdate validator_node_id)
         (fun t => blocks_since_last_update w t validator_node_id) ;;
  min_interval <-
    call MinIntervalToSetWeights (fun t => min_interval_to_set_weights w t) ;;
  wait_for_interval blocks_since_update min_interval ;;;
  let data_to_score := _get_delta_node_data v in
  r <- calculate_weights np w v data_to_score false ;;
  submit (fst r) (snd r) validator_node_id.
End Publisher.

(** * Definitions used by the statements *)


(** The order of a descending sort by timestamp. *)
Definition newer_first (a b : NodeData) : Prop := timestamp b <= timestamp a.

(** The identifiers the registry knows, in the order of the first loop. *)
Definition registry_hotkeys (v : Validator) : list string :=
  map snd (all_hotkeys_of (metagraph_nodes v)).


(** The record the second loop appends for one hotkey. *)
Definition record_for (st : TelemetryStorage) (all_hotkeys : list (Uid * string))
    (hk : string) : NodeData :=
  let tel := sorted_desc (get_telemetry_by_hotkey st hk) in
  if (2 <=? List.length tel)%nat then
    delta_of hk (hd (zero_record hk UidNone) tel)
             (last tel (zero_record hk UidNone))
  else zero_record hk (find_uid all_hotkeys hk).

(** The test of the last loop: [hotkey not in processed_hotkeys]. *)
Definition unprocessed (processed : list string) (e : Uid * string) : bool :=
  negb (in_set (snd e) processed).

(** The calls to [set_node_weights]. *)
Definition is_submission (e : event) : bool :=
  match e with SetNodeWeights _ _ _ => true | _ => false end.

(** The suspensions. *)
Definition is_sleep (e : event) : bool :=
  match e with Sleep _ => true | _ => false end.

(** An attempt succeeds when the call returns a true value. *)
Definition succeeded (r : result bool) : bool :=
  match r with Ok true => true | _ => false end.

(** The error entry an unsuccessful attempt leaves in the log. *)
Definition attempt_log (n : nat) (r : result bool) : event :=
  match r with
  | Raise e => Log ERROR (ErrorOnAttempt n e)
  | Ok _ => Log ERROR (FailedAttempt n)
  end.

(** The slot id a record resolves to; [None] is the [KeyError] of the
    registry lookup. *)
Definition resolved (v : Validator) (simulation : bool) (node : NodeData)
  : option Uid :=
  if simulation then Some (uid node)
  else option_map node_id (dict_get String.eqb (hotkey node) (metagraph_nodes v)).

(** The slot id under which a record is scored, if it is. *)
Definition scored (v : Validator) (simulation : bool) (node : NodeData)
  : option Uid :=
  match resolved v simulation node with
  | Some u => if is_None u then None else Some u
  | None => None
  end.

(** The error entry of the [except KeyError] handler. *)
Definition not_found (node : NodeData) : event :=
  Log ERROR (NodeNotInMetagraph (hotkey node)).

(** [enumerate] from an offset. *)
Definition enumerate_from {A} (k : nat) (l : list A) : list (nat * A) :=
  combine (seq k (List.length l)) l.

(** The dictionary the loop builds, with the effects erased. *)
Definition score_step (v : Validator) (sim : bool) (ws tw pr : list float)
    (d : list (Uid * float)) (p : nat * NodeData) : list (Uid * float) :=
  match scored v sim (snd p) with
  | Some u => dict_set Uid_eqb u (combined_score ws tw pr (fst p)) d
  | None => d
  end.

(** [score_step], over the records walked. *)
Definition pure_scores (v : Validator) (sim : bool) (ws tw pr : list float)
    (l : list (nat * NodeData)) (d : list (Uid * float)) : list (Uid * float) :=
  fold_left (score_step v sim ws tw pr) l d.

(** A node manager whose failures are all [KeyError]s. *)
Definition reports_raise_only_KeyError (w : World) : Prop :=
  forall t hk score node e,
    send_score_report w t hk score node = Some e -> is_KeyError e = true.

(** The events the loop may add, given the records it walks. *)
Definition loop_event (v : Validator) (sim : bool) (ws tw pr : list float)
    (l : list (nat * NodeData)) (e : event) : Prop :=
  match e with
  | SendScoreReport hk score node =>
      exists idx u, In (idx, node) l /\ hk = hotkey node /\
                    score = combined_score ws tw pr idx /\
                    scored v sim node = Some u
  | Log ERROR (NodeNotInMetagraph hk) =>
      exists idx node, In (idx, node) l /\ hk = hotkey node /\
                       resolved v sim node <> Some UidNone
  | _ => False
  end.

(** The score reports of a trace: hotkey and record, in order. *)
Definition reports_of (t : trace) : list (string * NodeData) :=
  flat_map (fun e => match e with
                     | SendScoreReport hk _ n => [(hk, n)]
                     | _ => []
                     end) t.

(** The records that get an entry and a report. *)
Definition is_scored (v : Validator) (sim : bool) (p : nat * NodeData) : bool :=
  match scored v sim (snd p) with Some _ => true | None => false end.




(** What [finish] returns, as a function of the dictionary. *)
Definition finish_value (scores : list (Uid * float))
  : result (list Uid * list float) :=
  match sorted_uids (dict_keys scores) with
  | None => Raise TypeError
  | Some uids =>
      match weights_of scores uids with
      | Raise e => Raise e
      | Ok weights => Ok (uids, weights)
      end
  end.

(** The events [calculate_weights] can add: reports and log entries. *)
Definition calc_event (e : event) : bool :=
  match e with
  | Log _ _ | SendScoreReport _ _ _ => true
  | _ => false
  end.

(** The world [w] with a node manager that never fails. *)
Definition with_reliable_reports (w : World) : World :=
  {| send_score_report := fun _ _ _ _ => None;
     get_substrate := get_substrate w;
     blocks_since_last_update := blocks_since_last_update w;
     min_interval_to_set_weights := min_interval_to_set_weights w;
     set_node_weights := set_node_weights w |}.

(** The trace after the interval rule. *)
Definition after_interval (t : trace) (blocks_since_update : option Z)
    (min_interval : Z) : trace :=
  match blocks_since_update with
  | Some b =>
      if b <? min_interval then t ++ [Sleep ((min_interval - b) * 12)] else t
  | None => t
  end.


(** The two questions of the interval rule. *)
Definition is_interval_query (e : event) : bool :=
  match e with
  | BlocksSinceLastUpdate _ | MinIntervalToSetWeights => true
  | _ => false
  end.

(** ** Sample collaborators and inputs *)

(** A node manager and a ledger that never fail; the ledger reports 5 blocks
    since the last update, asks for 20 and accepts every submission. *)
Definition quiet_world : World :=
  {| send_score_report := fun _ _ _ _ => None;
     get_substrate := fun _ => None;
     blocks_since_last_update := fun _ _ => Ok (Some 5);
     min_interval_to_set_weights := fun _ => Ok 20;
     set_node_weights := fun _ _ _ _ => Ok true |}.

(** The same, with a node manager that cannot reach any miner. *)
Definition unreachable_world : World :=
  {| send_score_report := fun _ _ _ _ => Some (OtherError "ConnectionError");
     get_substrate := fun _ => None;
     blocks_since_last_update := fun _ _ => Ok (Some 5);
     min_interval_to_set_weights := fun _ => Ok 20;
     set_node_weights := fun _ _ _ _ => Ok true |}.

(** The same, with a node manager that does not know the hotkey ["a"]. *)
Definition forgetful_world : World :=
  {| send_score_report :=
       fun _ hk _ _ => if String.eqb hk "a" then Some (KeyError "a") else None;
     get_substrate := fun _ => None;
     blocks_since_last_update := fun _ _ => Ok (Some 5);
     min_interval_to_set_weights := fun _ => Ok 20;
     set_node_weights := fun _ _ _ _ => Ok true |}.

(** A ledger that refuses every submission. *)
Definition refusing_world : World :=
  {| send_score_report := fun _ _ _ _ => None;
     get_substrate := fun _ => None;
     blocks_since_last_update := fun _ _ => Ok None;
     min_interval_to_set_weights := fun _ => Ok 20;
     set_node_weights := fun _ _ _ _ => Ok false |}.

(** A snapshot with one counter set. *)
Definition snapshot (hk : string) (u : Uid) (ts ws : Z) : NodeData :=
  {| hotkey := hk; uid := u; worker_id := "w"; timestamp := ts;
     boot_time := 0; last_operation_time := 0; current_time := 0;
     twitter_auth_errors := 0; twitter_errors := 0;
     twitter_ratelimit_errors := 0; twitter_returned_other := 0;
     twitter_returned_profiles := 0; twitter_returned_tweets := 0;
     twitter_scrapes := 0; web_errors := 0; web_success := ws |}.

(** Four snapshots of ["a"] (two of them at the oldest time), one of ["b"],
    and ["x"] listed without snapshots. *)
Definition sample_storage : TelemetryStorage :=
  {| get_all_hotkeys_with_telemetry := ["a"; "b"; "x"];
     get_telemetry_by_hotkey := fun hk =>
       if String.eqb hk "a" then
         [snapshot "a" (UidInt 1) 10 5; snapshot "a" (UidInt 1) 30 9;
          snapshot "a" (UidInt 1) 20 7; snapshot "a" (UidInt 1) 10 6]
       else if String.eqb hk "b" then [snapshot "b" (UidInt 2) 10 5]
       else [] |}.

(** A registry of ["a"], ["b"], ["c"] and the validator itself. *)
Definition sample_validator : Validator :=
  {| metagraph_nodes :=
       [("a", mkNode (UidInt 1) "a"); ("b", mkNode (UidInt 2) "b");
        ("c", mkNode (UidInt 3) "c"); ("val", mkNode (UidInt 9) "val")];
     telemetry_storage := sample_storage;
     keypair_ss58_address := "val" |}.


(** Slot ids of both kinds, one of them twice, and a record without one. *)
Definition mixed_id_records : list NodeData :=
  [zero_record "a" (UidStr "10"); zero_record "b" (UidInt 9);
   zero_record "c" UidNone; zero_record "d" (UidInt 9)].

(** The validator alone in the registry, with an empty telemetry store. *)
Definition lone_validator : Validator :=
  {| metagraph_nodes := [("val", mkNode (UidInt 9) "val")];
     telemetry_storage :=
       {| get_all_hotkeys_with_telemetry := [];
          get_telemetry_by_hotkey := fun _ => [] |};
     keypair_ss58_address := "val" |}.

(** * Definitions used by the further properties *)

(** ** The plain score transform *)

Section PlainTransform.
Variable np : NumPy.
Local Open Scope float_scope.

End PlainTransform.

(** ** Events, inputs and collaborators *)

(** The events of a weight calculation over at least one record. *)
Definition report_or_error (e : event) : bool :=
  match e with
  | SendScoreReport _ _ _ | Log ERROR _ => true
  | _ => false
  end.

(** The events of a cycle before the weight calculation, and those of the
    submission loop; [own] is the validator's slot id in the registry. *)
Definition prelude_event (own : option Uid) (e : event) : bool :=
  match e with
  | GetSubstrate | MinIntervalToSetWeights | Sleep _ => true
  | BlocksSinceLastUpdate vid =>
      match own with Some u => Uid_eqb vid u | None => false end
  | _ => false
  end.

(** The events of the submission loop, made under the slot id [own]. *)
Definition submission_event (own : option Uid) (e : event) : bool :=
  match e with
  | Sleep _ | Log ERROR _ => true
  | SetNodeWeights _ _ vid =>
      match own with Some u => Uid_eqb vid u | None => false end
  | _ => false
  end.

(** The slot id the registry holds for the validator's own address. *)
Definition own_slot_id (v : Validator) : option Uid :=
  option_map node_id
    (dict_get String.eqb (keypair_ss58_address v) (metagraph_nodes v)).

(** The warnings of the log. *)
Definition is_warning (e : event) : bool :=
  match e with Log WARNING _ => true | _ => false end.

(** The score reports. *)
Definition is_report (e : event) : bool :=
  match e with SendScoreReport _ _ _ => true | _ => false end.

(** What one iteration adds to the trace when the report does not fail. *)
Definition iteration_events (v : Validator) (sim : bool) (ws tw pr : list float)
    (p : nat * NodeData) : trace :=
  match resolved v sim (snd p) with
  | None => [Log ERROR (NodeNotInMetagraph (hotkey (snd p)))]
  | Some u =>
      if is_None u then []
      else [SendScoreReport (hotkey (snd p))
              (combined_score ws tw pr (fst p)) (snd p)]
  end.

(** A node manager that never fails. *)
Definition reports_never_fail (w : World) : Prop :=
  forall t hk score node, send_score_report w t hk score node = None.

(** A record whose three scored counters are zero. *)
Definition idle (n : NodeData) : Prop :=
  web_success n = 0 /\ twitter_returned_tweets n = 0 /\
  twitter_returned_profiles n = 0.



(** ** Further sample inputs *)

(** One identifier with three snapshots stored oldest first. *)
Definition ordered_validator : Validator :=
  {| metagraph_nodes := [("m", mkNode (UidInt 4) "m")];
     telemetry_storage :=
       {| get_all_hotkeys_with_telemetry := ["m"];
          get_telemetry_by_hotkey := fun _ =>
            [snapshot "m" (UidInt 4) 10 1; snapshot "m" (UidInt 4) 20 4;
             snapshot "m" (UidInt 4) 30 9] |};
     keypair_ss58_address := "m" |}.



(** A store that lists ["ghost"], which the registry does not hold. *)
Definition haunted_validator : Validator :=
  {| metagraph_nodes := [("val", mkNode (UidInt 9) "val")];
     telemetry_storage :=
       {| get_all_hotkeys_with_telemetry := ["ghost"];
          get_telemetry_by_hotkey := fun _ => [] |};
     keypair_ss58_address := "val" |}.

(** * Properties *)

(** ** The sort of the delta engine *)

Lemma insert_desc_perm (x : NodeData) (s : list NodeData) :
  Permutation (insert_desc x s) (x :: s).
Proof.
  induction s as [|y s IH]; simpl; [reflexivity|].
  destruct (timestamp x <? timestamp y); [|reflexivity].
  rewrite IH. apply perm_swap.
Qed.

Lemma sorted_desc_perm (l : list NodeData) : Permutation (sorted_desc l) l.
Proof.
  induction l as [|x l IH]; simpl; [constructor|].
  rewrite insert_desc_perm. now constructor.
Qed.

Lemma sorted_desc_length (l : list NodeData) :
  List.length (sorted_desc l) = List.length l.
Proof. apply Permutation_length, sorted_desc_perm. Qed.

Lemma insert_desc_sorted (x : NodeData) (s : list NodeData) :
  StronglySorted newer_first s -> StronglySorted newer_first (insert_desc x s).
Proof.
  induction 1 as [|y s Hs IH Hy]; simpl.
  - repeat constructor.
  - destruct (Z.ltb_spec (timestamp x) (timestamp y)) as [Hlt|Hge].
    + constructor; [exact IH|].
      rewrite Forall_forall in *. intros z Hz.
      apply (Permutation_in _ (insert_desc_perm x s)) in Hz.
      destruct Hz as [<-|Hz]; [unfold newer_first; lia | now apply Hy].
    + constructor; [now constructor|].
      constructor; [exact Hge|].
      rewrite Forall_forall in *. intros z Hz.
      specialize (Hy z Hz). unfold newer_first in *. lia.
Qed.

Lemma sorted_desc_sorted (l : list NodeData) :
  StronglySorted newer_first (sorted_desc l).
Proof.
  induction l; simpl; [constructor | now apply insert_desc_sorted].
Qed.



(** A list of two elements or more has a first and a last element. *)
Lemma first_last_split (A : Type) (l : list A) :
  (2 <= List.length l)%nat ->
  exists a mid b, l = a :: mid ++ [b].
Proof.
  destruct l as [|a l]; simpl; [lia|]. intros H.
  destruct (exists_last (l := l)) as (mid & b & ->).
  - destruct l; simpl in *; [lia | discriminate].
  - now exists a, mid, b.
Qed.

Lemma last_snoc (A : Type) (l : list A) (b d : A) : last (l ++ [b]) d = b.
Proof. apply last_last. Qed.

(** ** The delta engine *)

Lemma process_hotkey_eq st ah acc hk :
  process_hotkey st ah acc hk = (fst acc ++ [record_for st ah hk], hk :: snd acc).
Proof.
  unfold process_hotkey, record_for. rewrite sorted_desc_length.
  destruct (Nat.leb_spec 2 (List.length (get_telemetry_by_hotkey st hk))) as [H|H];
    [|reflexivity].
  rewrite <- sorted_desc_length in H.
  destruct (first_last_split _ H) as (a & mid & b & ->).
  cbn [hd]. rewrite !app_comm_cons, !last_last. reflexivity.
Qed.

Lemma fold_process_hotkey st ah hks d p :
  fold_left (process_hotkey st ah) hks (d, p) =
  (d ++ map (record_for st ah) hks, rev hks ++ p).
Proof.
  revert d p. induction hks as [|hk hks IH]; intros d p; simpl.
  - now rewrite app_nil_r.
  - rewrite process_hotkey_eq. simpl. rewrite IH.
    now rewrite <- !app_assoc.
Qed.

Lemma fold_add_missing processed ah d :
  fold_left (add_missing processed) ah d =
  d ++ map (fun e => zero_record (snd e) (fst e)) (filter (unprocessed processed) ah).
Proof.
  revert d. induction ah as [|e ah IH]; intros d; simpl.
  - now rewrite app_nil_r.
  - rewrite IH. unfold add_missing, unprocessed.
    destruct (in_set (snd e) processed); simpl; [reflexivity|].
    now rewrite <- app_assoc.
Qed.

Lemma in_set_In hk s : in_set hk s = true <-> In hk s.
Proof.
  unfold in_set. rewrite existsb_exists. split.
  - intros (x & Hx & E). apply String.eqb_eq in E. now subst.
  - intros H. exists hk. split; [exact H | apply String.eqb_refl].
Qed.

(** The output, loop-free: the listed hotkeys in the order of the store, then
    the registry entries the store does not list. *)
Lemma get_delta_node_data_eq (v : Validator) :
  let st := telemetry_storage v in
  let ah := all_hotkeys_of (metagraph_nodes v) in
  let hks := get_all_hotkeys_with_telemetry st in
  _get_delta_node_data v =
  map (record_for st ah) hks ++
  map (fun e => zero_record (snd e) (fst e)) (filter (unprocessed (rev hks)) ah).
Proof.
  intros st ah hks. unfold _get_delta_node_data.
  fold st ah hks. rewrite fold_process_hotkey. cbn [app].
  rewrite fold_add_missing. now rewrite app_nil_r.
Qed.

Lemma record_for_hotkey st ah hk : hotkey (record_for st ah hk) = hk.
Proof. unfold record_for. now destruct (_ <=? _)%nat. Qed.

Lemma unprocessed_spec hks e :
  unprocessed (rev hks) e = true <-> ~ In (snd e) hks.
Proof.
  unfold unprocessed. rewrite negb_true_iff, <- not_true_iff_false, in_set_In.
  now rewrite <- in_rev.
Qed.

Lemma delta_hotkeys (v : Validator) :
  map hotkey (_get_delta_node_data v) =
  get_all_hotkeys_with_telemetry (telemetry_storage v) ++
  map snd (filter (unprocessed (rev (get_all_hotkeys_with_telemetry (telemetry_storage v))))
                  (all_hotkeys_of (metagraph_nodes v))).
Proof.
  rewrite get_delta_node_data_eq. cbv zeta. rewrite map_app, !map_map.
  f_equal.
  erewrite map_ext; [apply map_id|]. intros; apply record_for_hotkey.
Qed.

(** The last loop keeps the registry's identifiers distinct. *)
Lemma unprocessed_hotkeys_NoDup (processed : list string)
    (ah : list (Uid * string)) :
  NoDup (map snd ah) ->
  NoDup (map snd (filter (unprocessed processed) ah)).
Proof.
  induction ah as [|e ah IH]; intros Hd; cbn; [constructor|].
  apply NoDup_cons_iff in Hd as [Hfresh Hd].
  destruct (unprocessed processed e); cbn; [|now apply IH].
  apply NoDup_cons; [|now apply IH].
  intros Hin. apply Hfresh.
  apply in_map_iff in Hin as (e' & <- & He').
  apply filter_In in He' as [He' _]. now apply in_map.
Qed.

Lemma dict_get_own_key (nodes : list (string * Node)) (k : string) (n : Node) :
  NoDup (map fst nodes) -> In (k, n) nodes ->
  dict_get String.eqb k nodes = Some n.
Proof.
  induction nodes as [|[k' n'] nodes IH]; intros Hd Hin; [destruct Hin|].
  cbn in Hd. apply NoDup_cons_iff in Hd as [Hfresh Hd]. cbn [dict_get].
  destruct Hin as [E|Hin].
  - inversion E; subst. now rewrite String.eqb_refl.
  - destruct (String.eqb_spec k' k) as [->|_]; [|now apply IH].
    exfalso. apply Hfresh. change k with (fst (k, n)). now apply in_map.
Qed.

(** When [metagraph.nodes] is a dictionary (its keys are distinct) and every
    entry is filed under its own hotkey, the identifiers the first loop
    collects are the keys, hence distinct. *)
Lemma registry_hotkeys_of_dict (v : Validator) :
  NoDup (map fst (metagraph_nodes v)) ->
  Forall (fun kv => node_hotkey (snd kv) = fst kv) (metagraph_nodes v) ->
  registry_hotkeys v = map fst (metagraph_nodes v) /\
  NoDup (registry_hotkeys v).
Proof.
  intros Hd Hk.
  assert (Haux : forall l,
             (forall kv, In kv l ->
                dict_get String.eqb (fst kv) (metagraph_nodes v) = Some (snd kv)) ->
             (forall kv, In kv l -> node_hotkey (snd kv) = fst kv) ->
             map snd
               (flat_map
                  (fun kv =>
                     match dict_get String.eqb (fst kv) (metagraph_nodes v) with
                     | Some node_data =>
                         [(node_id node_data, node_hotkey node_data)]
                     | None => []
                     end) l) = map fst l).
  { induction l as [|kv l IH]; intros Hall Hk'; [reflexivity|].
    cbn [flat_map map]. rewrite (Hall kv (or_introl eq_refl)). cbn [app map snd].
    rewrite (Hk' kv (or_introl eq_refl)). f_equal.
    apply IH; intros kv' Hin; [apply Hall | apply Hk']; now right. }
  assert (E : registry_hotkeys v = map fst (metagraph_nodes v)).
  { unfold registry_hotkeys, all_hotkeys_of. apply Haux.
    - intros [k n] Hin. now apply dict_get_own_key.
    - now apply Forall_forall. }
  split; [exact E | now rewrite E].
Qed.

(** C5: when the store lists each identifier once and the registry holds each
    identifier once, the output of the delta engine has no two records of one
    identifier, and every identifier of the registry has exactly one record,
    whatever telemetry the store holds for it. *)
Theorem delta_exactly_one_record_per_registry_node (v : Validator) :
  NoDup (get_all_hotkeys_with_telemetry (telemetry_storage v)) ->
  NoDup (registry_hotkeys v) ->
  NoDup (map hotkey (_get_delta_node_data v)) /\
  forall hk, In hk (registry_hotkeys v) ->
    count_occ string_dec (map hotkey (_get_delta_node_data v)) hk = 1%nat.
Proof.
  intros Hs Hr.
  assert (Hnd : NoDup (map hotkey (_get_delta_node_data v))).
  { rewrite delta_hotkeys. apply NoDup_app.
    - exact Hs.
    - now apply unprocessed_hotkeys_NoDup.
    - intros hk Hin Hin'. apply in_map_iff in Hin' as (e & <- & He).
      apply filter_In in He as [_ He]. apply unprocessed_spec in He. tauto. }
  split; [exact Hnd|].
  intros hk Hin. apply NoDup_count_occ'; [exact Hnd|].
  rewrite delta_hotkeys. apply in_or_app.
  destruct (in_dec string_dec hk (get_all_hotkeys_with_telemetry (telemetry_storage v)))
    as [Hl|Hl]; [now left|right].
  unfold registry_hotkeys in Hin. apply in_map_iff in Hin as (e & <- & He).
  apply in_map, filter_In. split; [exact He|]. now apply unprocessed_spec.
Qed.



Lemma in_delta_node_data (v : Validator) (d : NodeData) :
  In d (_get_delta_node_data v) <->
  (In (hotkey d) (get_all_hotkeys_with_telemetry (telemetry_storage v)) /\
   d = record_for (telemetry_storage v) (all_hotkeys_of (metagraph_nodes v)) (hotkey d)) \/
  (~ In (hotkey d) (get_all_hotkeys_with_telemetry (telemetry_storage v)) /\
   exists u, In (u, hotkey d) (all_hotkeys_of (metagraph_nodes v)) /\
             d = zero_record (hotkey d) u).
Proof.
  rewrite get_delta_node_data_eq. cbv zeta. rewrite in_app_iff, !in_map_iff.
  split.
  - intros [(hk & <- & Hin)|([u hk] & <- & Hin)].
    + left. rewrite record_for_hotkey. now split.
    + right. apply filter_In in Hin as [Hin Hun].
      apply unprocessed_spec in Hun. simpl in *. split; [exact Hun|].
      now exists u.
  - intros [[Hin E]|[Hn (u & Hin & E)]].
    + left. now exists (hotkey d).
    + right. exists (u, hotkey d). split; [now rewrite E|].
      apply filter_In. split; [exact Hin | now apply unprocessed_spec].
Qed.


(** ** The publisher: submission and retries *)

Lemma attempt_body_eq w uids scores vid attempt t :
  let S := SetNodeWeights uids scores vid in
  let o := set_node_weights w t uids scores vid in
  attempt_body w uids scores vid attempt t =
  if succeeded o then (t ++ [S], Ok true)
  else if (attempt <? 2)%nat
       then (t ++ [S; attempt_log (attempt + 1) o; Sleep 10], Ok false)
       else (t ++ [S; attempt_log (attempt + 1) o], Ok false).
Proof.
  cbv zeta.
  unfold attempt_body, try_except, bind, call_set_node_weights, call, log, sleep,
    emit, modify, ret.
  destruct (attempt <? 2)%nat;
    destruct (set_node_weights w t uids scores vid) as [[|]|e]; cbn;
    rewrite <- ?app_assoc; reflexivity.
Qed.

(** The submission loop, unrolled. *)
Lemma submit_unrolled (w : World) (uids : list Uid) (scores : list float)
    (vid : Uid) (t : trace) :
  let S := SetNodeWeights uids scores vid in
  let o1 := set_node_weights w t uids scores vid in
  let t2 := t ++ [S; attempt_log 1 o1; Sleep 10] in
  let o2 := set_node_weights w t2 uids scores vid in
  let t3 := t2 ++ [S; attempt_log 2 o2; Sleep 10] in
  let o3 := set_node_weights w t3 uids scores vid in
  submit w uids scores vid t =
    (if succeeded o1 then (t ++ [S], Ok tt)
     else if succeeded o2 then (t2 ++ [S], Ok tt)
     else if succeeded o3 then (t3 ++ [S], Ok tt)
     else (t3 ++ [S; attempt_log 3 o3; Log ERROR FailedAllAttempts], Ok tt)).
Proof.
  cbv zeta.
  unfold submit. cbn [seq attempts_loop]. unfold bind at 1 2.
  rewrite attempt_body_eq. cbv zeta.
  destruct (succeeded (set_node_weights w t uids scores vid)); [reflexivity|].
  cbn [Nat.ltb Nat.leb Nat.add]. unfold bind at 1.
  rewrite attempt_body_eq. cbv zeta.
  destruct (succeeded (set_node_weights w _ uids scores vid)); [reflexivity|].
  cbn [Nat.ltb Nat.leb Nat.add]. unfold bind at 1.
  rewrite attempt_body_eq. cbv zeta.
  destruct (succeeded (set_node_weights w _ uids scores vid)); [reflexivity|].
  cbn [Nat.ltb Nat.leb Nat.add]. unfold ret, log, emit, modify.
  rewrite <- (app_assoc _ [SetNodeWeights uids scores vid; _]
                        [Log ERROR FailedAllAttempts]).
  reflexivity.
Qed.

(** What the submission loop adds to the trace. *)
Lemma submit_events (w : World) (uids : list Uid) (scores : list float)
    (vid : Uid) (t : trace) :
  exists new,
    submit w uids scores vid t = (t ++ new, Ok tt) /\
    (1 <= List.length (filter is_submission new) <= 3)%nat /\
    (List.length (filter is_sleep new) =
     List.length (filter is_submission new) - 1)%nat /\
    (forall s, In (Sleep s) new -> s = 10) /\
    (forall e, In e new -> is_submission e = true ->
               e = SetNodeWeights uids scores vid) /\
    (exists before,
        new = before ++ [SetNodeWeights uids scores vid] \/
        exists o, new = before ++ [SetNodeWeights uids scores vid;
                                   attempt_log 3 o;
                                   Log ERROR FailedAllAttempts]).
Proof.
  rewrite submit_unrolled. cbv zeta.
  set (S := SetNodeWeights uids scores vid).
  set (o1 := set_node_weights w t uids scores vid).
  set (o2 := set_node_weights w (t ++ _) uids scores vid).
  set (o3 := set_node_weights w ((t ++ _) ++ _) uids scores vid).
  assert (Hsub : forall n o, is_submission (attempt_log n o) = false)
    by (intros n [b|e]; reflexivity).
  assert (Hsl : forall n o, is_sleep (attempt_log n o) = false)
    by (intros n [b|e]; reflexivity).
  assert (Hns : forall n o s, attempt_log n o <> Sleep s)
    by (intros n [b|e] s; discriminate).
  assert (Hin : forall (l : trace),
             Forall (fun e => e = S \/ e = Sleep 10 \/
                              is_submission e = false /\ is_sleep e = false) l ->
             (forall s, In (Sleep s) l -> s = 10) /\
             (forall e, In e l -> is_submission e = true -> e = S)).
  { intros l Hl. rewrite Forall_forall in Hl. split.
    - intros s Hs. destruct (Hl _ Hs) as [E|[E|[_ E]]];
        [discriminate | now inversion E | discriminate].
    - intros e He Hsb. destruct (Hl _ He) as [E|[E|[E _]]];
        [exact E | subst; discriminate | congruence]. }
  destruct (succeeded o1).
  { exists [S]. split; [reflexivity|].
    split; [cbn; lia|]. split; [reflexivity|].
    destruct (Hin [S]) as [Ha Hb]; [repeat (apply Forall_cons; [auto|]); apply Forall_nil|].
    split; [exact Ha|]. split; [exact Hb|]. exists []. now left. }
  destruct (succeeded o2).
  { exists [S; attempt_log 1 o1; Sleep 10; S].
    split; [now rewrite <- app_assoc|].
    split; [cbn; rewrite ?Hsub, ?Hsl; cbn; lia|].
    split; [cbn; rewrite ?Hsub, ?Hsl; cbn; lia|].
    destruct (Hin [S; attempt_log 1 o1; Sleep 10; S]) as [Ha Hb];
      [repeat (apply Forall_cons; [auto|]); apply Forall_nil|].
    split; [exact Ha|]. split; [exact Hb|].
    exists [S; attempt_log 1 o1; Sleep 10]. now left. }
  destruct (succeeded o3).
  { exists [S; attempt_log 1 o1; Sleep 10; S; attempt_log 2 o2; Sleep 10; S].
    split; [now rewrite <- !app_assoc|].
    split; [cbn; rewrite ?Hsub, ?Hsl; cbn; lia|].
    split; [cbn; rewrite ?Hsub, ?Hsl; cbn; lia|].
    destruct (Hin [S; attempt_log 1 o1; Sleep 10; S; attempt_log 2 o2;
                   Sleep 10; S]) as [Ha Hb]; [repeat (apply Forall_cons; [auto|]); apply Forall_nil|].
    split; [exact Ha|]. split; [exact Hb|].
    exists [S; attempt_log 1 o1; Sleep 10; S; attempt_log 2 o2; Sleep 10].
    now left. }
  exists [S; attempt_log 1 o1; Sleep 10; S; attempt_log 2 o2; Sleep 10; S;
          attempt_log 3 o3; Log ERROR FailedAllAttempts].
  split; [now rewrite <- !app_assoc|].
  split; [cbn; rewrite ?Hsub, ?Hsl; cbn; lia|].
  split; [cbn; rewrite ?Hsub, ?Hsl; cbn; lia|].
  destruct (Hin [S; attempt_log 1 o1; Sleep 10; S; attempt_log 2 o2;
                 Sleep 10; S; attempt_log 3 o3; Log ERROR FailedAllAttempts])
    as [Ha Hb]; [repeat (apply Forall_cons; [auto|]); apply Forall_nil|].
  split; [exact Ha|]. split; [exact Hb|].
  exists [S; attempt_log 1 o1; Sleep 10; S; attempt_log 2 o2; Sleep 10].
  right. now exists o3.
Qed.

(** ** The weight calculator: one iteration *)

Lemma score_node_eq w v sim ws tw pr idx node s :
  score_node w v sim ws tw pr (idx, node) s =
  match resolved v sim node with
  | None => (mkCalcState (miner_scores s) (events s ++ [not_found node]), Ok tt)
  | Some u =>
      if is_None u then (s, Ok tt)
      else
        let score := combined_score ws tw pr idx in
        let d := dict_set Uid_eqb u score (miner_scores s) in
        let t := events s ++ [SendScoreReport (hotkey node) score node] in
        match send_score_report w (events s) (hotkey node) score node with
        | None => (mkCalcState d t, Ok tt)
        | Some e =>
            if is_KeyError e then (mkCalcState d (t ++ [not_found node]), Ok tt)
            else (mkCalcState d t, Raise e)
        end
  end.
Proof.
  unfold score_node, try_except, bind, resolve_uid, resolved, lookup_node_id.
  destruct sim.
  - unfold ret at 1. cbn [option_map].
    destruct (is_None (uid node)); [reflexivity|].
    unfold set_score, call_send_score_report, modify, log_calc. cbn.
    destruct (send_score_report w (events s) (hotkey node) _ node) as [e|];
      [|reflexivity].
    destruct (is_KeyError e); reflexivity.
  - destruct (dict_get String.eqb (hotkey node) (metagraph_nodes v)) as [n|];
      cbn [option_map]; [|reflexivity].
    unfold ret at 1.
    destruct (is_None (node_id n)); [reflexivity|].
    unfold set_score, call_send_score_report, modify, log_calc. cbn.
    destruct (send_score_report w (events s) (hotkey node) _ node) as [e|];
      [|reflexivity].
    destruct (is_KeyError e); reflexivity.
Qed.

Lemma for_each_cons S A (x : A) (l : list A) (body : A -> M S unit) (s : S) :
  for_each (x :: l) body s =
  match body x s with
  | (s', Ok _) => for_each l body s'
  | (s', Raise e) => (s', Raise e)
  end.
Proof. reflexivity. Qed.

Lemma for_each_app S A (l1 l2 : list A) (body : A -> M S unit) (s : S) :
  for_each (l1 ++ l2) body s = (for_each l1 body ;;; for_each l2 body) s.
Proof.
  revert s. induction l1 as [|x l1 IH]; intros s; [reflexivity|].
  cbn [app]. rewrite for_each_cons. unfold bind at 1.
  rewrite for_each_cons.
  destruct (body x s) as [s' [[]|e]]; [|reflexivity].
  rewrite IH. reflexivity.
Qed.

Lemma enumerate_from_app A (k : nat) (l1 l2 : list A) :
  enumerate_from k (l1 ++ l2) =
  enumerate_from k l1 ++ enumerate_from (k + List.length l1) l2.
Proof.
  revert k. induction l1 as [|x l1 IH]; intros k; cbn.
  - now rewrite Nat.add_0_r.
  - unfold enumerate_from in *. f_equal. rewrite IH. cbn.
    now rewrite Nat.add_succ_r.
Qed.

Lemma enumerate_from_cons A (k : nat) (x : A) (l : list A) :
  enumerate_from k (x :: l) = (k, x) :: enumerate_from (S k) l.
Proof. reflexivity. Qed.



(** ** Dictionaries *)

Lemma Uid_eqb_spec (a b : Uid) : reflect (a = b) (Uid_eqb a b).
Proof.
  destruct a as [|x|x], b as [|y|y]; cbn; try (constructor; congruence).
  - destruct (Z.eqb_spec x y); constructor; congruence.
  - destruct (String.eqb_spec x y); constructor; congruence.
Qed.

Lemma dict_get_set (k q : Uid) (x : float) (d : list (Uid * float)) :
  dict_get Uid_eqb q (dict_set Uid_eqb k x d) =
  if Uid_eqb k q then Some x else dict_get Uid_eqb q d.
Proof.
  induction d as [|[k' x'] d IH]; cbn.
  - reflexivity.
  - destruct (Uid_eqb_spec k' k) as [->|Hne]; cbn.
    + destruct (Uid_eqb_spec k q); reflexivity.
    + rewrite IH. destruct (Uid_eqb_spec k' q) as [->|Hne'];
        [|reflexivity].
      destruct (Uid_eqb_spec k q); [congruence | reflexivity].
Qed.

Lemma dict_keys_set (k q : Uid) (x : float) (d : list (Uid * float)) :
  In q (dict_keys (dict_set Uid_eqb k x d)) <-> q = k \/ In q (dict_keys d).
Proof.
  unfold dict_keys. induction d as [|[k' x'] d IH]; cbn.
  - intuition congruence.
  - destruct (Uid_eqb_spec k' k) as [->|Hne]; cbn.
    + intuition congruence.
    + rewrite IH. intuition congruence.
Qed.

Lemma dict_set_NoDup (k : Uid) (x : float) (d : list (Uid * float)) :
  NoDup (dict_keys d) -> NoDup (dict_keys (dict_set Uid_eqb k x d)).
Proof.
  unfold dict_keys. induction d as [|[k' x'] d IH]; cbn; intros H.
  - repeat constructor. intros [].
  - inversion H as [|? ? Hn Hd]; subst.
    destruct (Uid_eqb_spec k' k) as [->|Hne]; cbn.
    + now constructor.
    + constructor; [|now apply IH].
      intros Hin. apply (dict_keys_set k k' x d) in Hin.
      destruct Hin as [E|Hin]; [congruence | contradiction].
Qed.


(** ** The weight calculator: the loop *)

Lemma loop_event_mono v sim ws tw pr l l' e :
  (forall p, In p l -> In p l') ->
  loop_event v sim ws tw pr l e -> loop_event v sim ws tw pr l' e.
Proof.
  intros Hsub. destruct e as [[] []| | | | | |]; cbn; try tauto.
  - intros (idx & node & H & R). exists idx, node. split; [now apply Hsub | exact R].
  - intros (idx & u & H & R). exists idx, u. split; [now apply Hsub | exact R].
Qed.

Lemma scored_Some v sim node u :
  scored v sim node = Some u <->
  resolved v sim node = Some u /\ is_None u = false.
Proof.
  unfold scored. destruct (resolved v sim node) as [u'|].
  - destruct (is_None u') eqn:E; split.
    + discriminate.
    + intros [[= ->] H]. congruence.
    + intros [= ->]. now split.
    + now intros [[= ->] _].
  - split; [discriminate | now intros [H _]].
Qed.

(** One iteration: the events it adds, and the dictionary it leaves. *)
Lemma score_node_step w v sim ws tw pr idx node s :
  exists new r,
    score_node w v sim ws tw pr (idx, node) s =
      (mkCalcState (score_step v sim ws tw pr (miner_scores s) (idx, node))
                   (events s ++ new), r) /\
    Forall (loop_event v sim ws tw pr [(idx, node)]) new /\
    (reports_raise_only_KeyError w -> r = Ok tt) /\
    (flat_map (fun e => match e with
                        | SendScoreReport hk _ n => [(hk, n)]
                        | _ => []
                        end) new =
     match scored v sim node with
     | Some _ => [(hotkey node, node)]
     | None => []
     end).
Proof.
  rewrite score_node_eq. unfold score_step, scored. cbn [fst snd].
  destruct (resolved v sim node) as [u|] eqn:R.
  - destruct (is_None u) eqn:N.
    + exists [], (Ok tt). rewrite app_nil_r. destruct s. repeat split. constructor.
    + cbv zeta.
      assert (Hrep : loop_event v sim ws tw pr [(idx, node)]
                (SendScoreReport (hotkey node) (combined_score ws tw pr idx) node)).
      { exists idx, u. repeat split; [now left|]. apply scored_Some. now split. }
      assert (Hlog : loop_event v sim ws tw pr [(idx, node)] (not_found node)).
      { exists idx, node. repeat split; [now left|]. rewrite R.
        intros [= ->]. discriminate. }
      destruct (send_score_report w (events s) (hotkey node) _ node) as [e|] eqn:Es.
      * destruct (is_KeyError e) eqn:K.
        -- eexists [_; _], (Ok tt). rewrite <- app_assoc.
           repeat split. repeat constructor; assumption.
        -- eexists [_], (Raise e). repeat split.
           ++ repeat constructor; assumption.
           ++ intros H. apply H in Es. congruence.
      * eexists [_], (Ok tt). repeat split. repeat constructor; assumption.
  - eexists [_], (Ok tt). repeat split.
    repeat constructor. exists idx, node. repeat split; [now left|].
    rewrite R. discriminate.
Qed.

(** The loop: the events are reports and registry misses of the records
    walked; when it is not left by an exception, the dictionary is
    [pure_scores] and every scored record got its report, in order. *)
Lemma score_loop w v sim ws tw pr l s :
  exists new r s',
    for_each l (score_node w v sim ws tw pr) s = (s', r) /\
    events s' = events s ++ new /\
    Forall (loop_event v sim ws tw pr l) new /\
    (reports_raise_only_KeyError w -> r = Ok tt) /\
    (r = Ok tt ->
     miner_scores s' = pure_scores v sim ws tw pr l (miner_scores s) /\
     reports_of new = map (fun p => (hotkey (snd p), snd p))
                          (filter (is_scored v sim) l)).
Proof.
  revert s. induction l as [|[idx node] l IH]; intros s.
  - exists [], (Ok tt), s. cbn. rewrite app_nil_r. repeat split. constructor.
  - rewrite for_each_cons.
    destruct (score_node_step w v sim ws tw pr idx node s)
      as (new1 & r1 & E1 & F1 & C1 & R1).
    rewrite E1. destruct r1 as [[]|e].
    + destruct (IH (mkCalcState
                      (score_step v sim ws tw pr (miner_scores s) (idx, node))
                      (events s ++ new1)))
        as (new2 & r2 & s2 & E2 & T2 & F2 & C2 & P2).
      exists (new1 ++ new2), r2, s2. rewrite E2. cbn [events miner_scores] in *.
      split; [reflexivity|]. split; [now rewrite T2, app_assoc|].
      split; [|split].
      * apply Forall_app. split.
        -- eapply Forall_impl; [|exact F1]. intros e.
           apply loop_event_mono. intros p [<-|[]]. now left.
        -- eapply Forall_impl; [|exact F2]. intros e.
           apply loop_event_mono. intros p Hp. now right.
      * exact C2.
      * intros Hr. destruct (P2 Hr) as [Hs Hrep]. split; [exact Hs|].
        unfold reports_of in *. rewrite flat_map_app, R1, Hrep.
        cbn [filter]. unfold is_scored at 2. cbn [snd].
        destruct (scored v sim node); reflexivity.
    + exists new1, (Raise e), (mkCalcState
                      (score_step v sim ws tw pr (miner_scores s) (idx, node))
                      (events s ++ new1)).
      cbn [events]. repeat split; try discriminate.
      * eapply Forall_impl; [|exact F1]. intros e'.
        apply loop_event_mono. intros p [<-|[]]. now left.
      * intros H. now apply C1 in H.
Qed.

(** The keys of the dictionary are the slot ids some record is scored under. *)
Lemma pure_scores_keys v sim ws tw pr l d u :
  In u (dict_keys (pure_scores v sim ws tw pr l d)) <->
  In u (dict_keys d) \/ exists p, In p l /\ scored v sim (snd p) = Some u.
Proof.
  unfold pure_scores. revert d. induction l as [|p l IH]; intros d; cbn [fold_left].
  - split; [now left | intros [H|(p & [] & _)]; exact H].
  - rewrite IH. unfold score_step.
    destruct (scored v sim (snd p)) as [u'|] eqn:E.
    + rewrite dict_keys_set. split.
      * intros [[->|H]|(q & Hq & Eq)].
        -- right. exists p. split; [now left | exact E].
        -- now left.
        -- right. exists q. split; [now right | exact Eq].
      * intros [H|(q & [<-|Hq] & Eq)].
        -- left. now right.
        -- left. left. congruence.
        -- right. now exists q.
    + split.
      * intros [H|(q & Hq & Eq)]; [now left|]. right. exists q. split; [now right | exact Eq].
      * intros [H|(q & [<-|Hq] & Eq)]; [now left | congruence |].
        right. now exists q.
Qed.

Lemma pure_scores_NoDup v sim ws tw pr l d :
  NoDup (dict_keys d) -> NoDup (dict_keys (pure_scores v sim ws tw pr l d)).
Proof.
  unfold pure_scores. revert d. induction l as [|p l IH]; intros d H; cbn [fold_left].
  - exact H.
  - apply IH. unfold score_step. destruct (scored v sim (snd p)); [|exact H].
    now apply dict_set_NoDup.
Qed.

(** The last record scored under a slot id decides its score. *)
Lemma pure_scores_last v sim ws tw pr l d u x :
  dict_get Uid_eqb u (pure_scores v sim ws tw pr l d) = Some x ->
  (dict_get Uid_eqb u d = Some x /\
   Forall (fun p => scored v sim (snd p) <> Some u) l) \/
  (exists pre idx node post,
      l = pre ++ (idx, node) :: post /\
      scored v sim node = Some u /\
      Forall (fun p => scored v sim (snd p) <> Some u) post /\
      x = combined_score ws tw pr idx).
Proof.
  unfold pure_scores. revert d. induction l as [|[idx node] l IH]; intros d H;
    cbn [fold_left] in H.
  - left. split; [exact H | constructor].
  - apply IH in H as [[Hd Hl]|(pre & i & n & post & -> & Hs & Hp & ->)].
    + unfold score_step in Hd. cbn [fst snd] in Hd.
      destruct (scored v sim node) as [u'|] eqn:E.
      * rewrite dict_get_set in Hd. destruct (Uid_eqb_spec u' u) as [->|Hne].
        -- right. exists [], idx, node, l. repeat split; try assumption.
           congruence.
        -- left. split; [exact Hd|]. constructor; [|exact Hl].
           cbn. rewrite E. congruence.
      * left. split; [exact Hd|]. constructor; [|exact Hl]. cbn. rewrite E.
        discriminate.
    + right. exists ((idx, node) :: pre), i, n, post. now repeat split.
Qed.

(** ** The final sort *)



(** Whatever the keys, a sort that returns has only permuted its input. *)
Lemma insert_by_key_perm (x : Uid) (s s' : list Uid) :
  insert_by_key x s = Some s' -> Permutation s' (x :: s).
Proof.
  revert s'. induction s as [|y s IH]; intros s' H; cbn in H.
  - now inversion H.
  - destruct (key_lt (uid_sort_key y) (uid_sort_key x)) as [[|]|]; try discriminate.
    + destruct (insert_by_key x s) as [r|]; [|discriminate].
      cbn in H. inversion H; subst. rewrite (IH r eq_refl). apply perm_swap.
    + now inversion H.
Qed.

Lemma sorted_uids_perm (l s : list Uid) :
  sorted_uids l = Some s -> Permutation s l.
Proof.
  revert s. induction l as [|x l IH]; intros s H; cbn in H.
  - inversion H. constructor.
  - destruct (sorted_uids l) as [r|]; [|discriminate].
    apply insert_by_key_perm in H. rewrite H. constructor. now apply IH.
Qed.

(** ** The two result lists *)

Lemma traverse_length A B (f : A -> result B) (l : list A) (r : list B) :
  traverse f l = Ok r -> List.length r = List.length l.
Proof.
  revert r. induction l as [|x l IH]; intros r H; cbn in H.
  - inversion H. reflexivity.
  - destruct (f x); [|discriminate].
    destruct (traverse f l) as [bs|]; [|discriminate].
    inversion H; subst. cbn. f_equal. now apply IH.
Qed.


(** On an empty or all-zero input the score transform answers zeros, without
    calling numpy's reductions. *)
Lemma apply_kurtosis_all_zero np x a b c d e :
  forallb (fun xi => PrimFloat.eqb xi 0%float) x = true ->
  apply_kurtosis_custom np x a b c d e = map (fun _ => 0%float) x.
Proof.
  intros H. unfold apply_kurtosis_custom. rewrite H.
  now rewrite orb_true_r.
Qed.


(** ** The weight calculator: the whole call *)

Lemma finish_eq (s : calc_state) : finish s = (s, finish_value (miner_scores s)).
Proof.
  unfold finish, finish_value.
  destruct (sorted_uids _); [|reflexivity].
  destruct (weights_of _ _); reflexivity.
Qed.

Lemma loop_event_calc v sim ws tw pr l e :
  loop_event v sim ws tw pr l e -> calc_event e = true.
Proof. destruct e as [[] []| | | | | |]; cbn; tauto. Qed.

Lemma calculate_weights_empty np w v sim t :
  calculate_weights np w v [] sim t = (t ++ [Log WARNING NoNodeData], Ok ([], [])).
Proof. reflexivity. Qed.

Lemma calculate_weights_overflow np w v recs sim t e :
  recs <> [] -> extract_metrics recs = Raise e ->
  calculate_weights np w v recs sim t = (t, Raise e).
Proof.
  intros Hne He. unfold calculate_weights, calculate_weights_body.
  destruct recs; [contradiction|]. rewrite He. reflexivity.
Qed.

Lemma calculate_weights_run np w v recs sim t a b c :
  recs <> [] -> extract_metrics recs = Ok (a, b, c) ->
  let ws := apply_kurtosis_default np a in
  let tw := apply_kurtosis_default np b in
  let pr := apply_kurtosis_default np c in
  exists new r,
    calculate_weights np w v recs sim t = (t ++ new, r) /\
    Forall (loop_event v sim ws tw pr (enumerate recs)) new /\
    (reports_raise_only_KeyError w \/ (exists x, r = Ok x) ->
     r = finish_value (pure_scores v sim ws tw pr (enumerate recs) []) /\
     reports_of new = map (fun p => (hotkey (snd p), snd p))
                          (filter (is_scored v sim) (enumerate recs))).
Proof.
  intros Hne He ws tw pr. unfold calculate_weights, calculate_weights_body.
  destruct recs as [|n0 recs']; [contradiction|]. rewrite He.
  fold ws tw pr. unfold bind.
  destruct (score_loop w v sim ws tw pr (enumerate (n0 :: recs'))
              (mkCalcState [] t)) as (new & r & s' & E & T & F & C & P).
  rewrite E. cbn [events miner_scores] in *.
  destruct r as [[]|e].
  - rewrite finish_eq. exists new, (finish_value (miner_scores s')).
    rewrite T. split; [reflexivity|]. split; [exact F|].
    intros _. destruct (P eq_refl) as [-> Hr]. now split.
  - exists new, (Raise e). rewrite T. split; [reflexivity|]. split; [exact F|].
    intros [H|[x Hx]]; [|discriminate]. apply C in H. discriminate.
Qed.

(** In every mode the call adds nothing but reports and log entries. *)
Lemma calculate_weights_events np w v recs sim t :
  exists new,
    fst (calculate_weights np w v recs sim t) = t ++ new /\
    forallb calc_event new = true.
Proof.
  destruct recs as [|n0 recs'] eqn:Er.
  - rewrite calculate_weights_empty. now exists [Log WARNING NoNodeData].
  - rewrite <- Er. assert (Hne : recs <> []) by (subst; discriminate).
    destruct (extract_metrics recs) as [[[a b] c]|e] eqn:He.
    + destruct (@calculate_weights_run np w v recs sim t a b c Hne He)
        as (new & r & E & F & _).
      exists new. rewrite E. split; [reflexivity|].
      apply forallb_forall. rewrite Forall_forall in F.
      intros e He'. eapply loop_event_calc, F, He'.
    + rewrite (@calculate_weights_overflow np w v recs sim t e Hne He).
      exists []. now rewrite app_nil_r.
Qed.

Lemma for_each_ext S A (l : list A) (f g : A -> M S unit) (s : S) :
  (forall x s', f x s' = g x s') -> for_each l f s = for_each l g s.
Proof.
  intros H. revert s. induction l as [|x l IH]; intros s; [reflexivity|].
  rewrite !for_each_cons, H. destruct (g x s) as [s' [[]|e]]; [apply IH | reflexivity].
Qed.

Lemma filter_enumerate_from A (p : A -> bool) (k : nat) (l : list A) :
  map snd (filter (fun q => p (snd q)) (enumerate_from k l)) = filter p l.
Proof.
  revert k. induction l as [|x l IH]; intros k; [reflexivity|].
  rewrite enumerate_from_cons. cbn [filter snd].
  destruct (p x); cbn [map snd]; now rewrite IH.
Qed.

Lemma In_enumerate A (l : list A) (idx : nat) (x : A) :
  In (idx, x) (enumerate l) -> In x l.
Proof. apply in_combine_r. Qed.

(** ** Simulation mode *)

(** C1, as the code has it: with [simulation=True] the registry is not
    consulted (the result does not depend on it) and nothing but reports and
    log entries is added to the trace, so the ledger is not touched; but a
    score report is sent for every record whose slot id is not [None], as long
    as no report raises anything but [KeyError]. *)
Theorem simulation_skips_registry_not_reports (np : NumPy) (w : World)
    (v : Validator) (recs : list NodeData) (t : trace) :
  (forall v', calculate_weights np w v' recs true t =
              calculate_weights np w v recs true t) /\
  exists new,
    fst (calculate_weights np w v recs true t) = t ++ new /\
    forallb calc_event new = true /\
    (reports_raise_only_KeyError w ->
     (exists m, extract_metrics recs = Ok m) ->
     reports_of new =
     map (fun n => (hotkey n, n)) (filter (fun n => negb (is_None (uid n))) recs)).
Proof.
  split.
  - intros v'. unfold calculate_weights, calculate_weights_body.
    destruct recs as [|n0 recs']; [reflexivity|].
    destruct (extract_metrics (n0 :: recs')) as [[[a b] c]|e]; [|reflexivity].
    cbv zeta. unfold bind.
    erewrite for_each_ext; [reflexivity|].
    intros [idx node] s'. now rewrite !score_node_eq.
  - destruct (calculate_weights_events np w v recs true t) as (new & E & F).
    exists new. split; [exact E|]. split; [exact F|].
    intros Hw [[[a b] c] He].
    destruct recs as [|n0 recs'] eqn:Er.
    + rewrite calculate_weights_empty in E. cbn [fst] in E.
      apply app_inv_head in E. now subst new.
    + rewrite <- Er in *. assert (Hne : recs <> []) by (subst; discriminate).
      destruct (@calculate_weights_run np w v recs true t a b c Hne He)
        as (new' & r & E' & _ & P).
      rewrite E' in E. cbn [fst] in E. apply app_inv_head in E. subst new'.
      destruct (P (or_introl Hw)) as [_ ->].
      rewrite <- (filter_enumerate_from (fun n => negb (is_None (uid n))) 0 recs).
      rewrite map_map. unfold enumerate, enumerate_from.
      f_equal. apply filter_ext. intros [idx node].
      unfold is_scored, scored, resolved. cbn [snd].
      now destruct (is_None (uid node)).
Qed.

(** On the records of mixed slot ids: three reports, none for the record
    without a slot id, and nothing else but log entries. *)
Lemma simulation_skips_registry_not_reports_witness :
  reports_raise_only_KeyError quiet_world /\
  (exists m, extract_metrics mixed_id_records = Ok m) /\
  forall np,
    exists new,
      fst (calculate_weights np quiet_world sample_validator mixed_id_records
             true []) = new /\
      forallb calc_event new = true /\
      reports_of new =
      [("a", zero_record "a" (UidStr "10")); ("b", zero_record "b" (UidInt 9));
       ("d", zero_record "d" (UidInt 9))].
Proof.
  assert (Hw : reports_raise_only_KeyError quiet_world)
    by (intros t hk score node e H; discriminate).
  assert (Hm : exists m, extract_metrics mixed_id_records = Ok m)
    by (eexists; vm_compute; reflexivity).
  split; [exact Hw|]. split; [exact Hm|]. intros np.
  destruct (proj2 (simulation_skips_registry_not_reports np quiet_world
                     sample_validator mixed_id_records []))
    as (new & E & F & R).
  exists new. split; [exact E|]. split; [exact F|]. exact (R Hw Hm).
Defined.

(** C1 as stated fails: a simulation over one record with slot id 7 sends
    that record's score report to the node manager. *)
Lemma simulation_sends_score_report :
  (forall np,
     fst (calculate_weights np quiet_world sample_validator
            [zero_record "a" (UidInt 7)] true []) =
     [SendScoreReport "a" 0%float (zero_record "a" (UidInt 7))]) /\
  (forall np,
     snd (calculate_weights np quiet_world sample_validator
            [zero_record "a" (UidInt 7)] true []) =
     Ok ([UidInt 7], [0%float])).
Proof. split; intros np; vm_compute; reflexivity. Qed.

(** ** Failing score reports *)

Lemma reliable_reports_ok (w : World) :
  reports_raise_only_KeyError (with_reliable_reports w).
Proof. intros t hk score node e H. discriminate. Qed.

(** What the call returns when no report raises anything but [KeyError]. *)
Lemma calculate_weights_value np w v recs sim t :
  reports_raise_only_KeyError w ->
  snd (calculate_weights np w v recs sim t) =
  match recs with
  | [] => Ok ([], [])
  | _ :: _ =>
      match extract_metrics recs with
      | Raise e => Raise e
      | Ok (a, b, c) =>
          finish_value
            (pure_scores v sim (apply_kurtosis_default np a)
               (apply_kurtosis_default np b) (apply_kurtosis_default np c)
               (enumerate recs) [])
      end
  end.
Proof.
  intros Hw. destruct recs as [|n0 recs'] eqn:Er; [reflexivity|].
  rewrite <- Er. assert (Hne : recs <> []) by (subst; discriminate).
  destruct (extract_metrics recs) as [[[a b] c]|e] eqn:He.
  - destruct (@calculate_weights_run np w v recs sim t a b c Hne He)
      as (new & r & E & _ & P).
    rewrite E. cbn [snd]. now destruct (P (or_introl Hw)) as [-> _].
  - now rewrite (@calculate_weights_overflow np w v recs sim t e Hne He).
Qed.

(** C4, as the code has it: a [KeyError] raised by a score report is caught
    by the handler of the registry lookup: the score stays recorded, the miss
    is logged as an error, the loop goes on, and the call returns what it
    returns with a node manager that never fails.  An error of another class
    leaves the iteration, and with it the loop and the call, as an
    exception. *)
Theorem report_KeyError_is_absorbed (np : NumPy) (w : World) (v : Validator)
    (recs : list NodeData) (sim : bool) (t : trace) :
  (reports_raise_only_KeyError w ->
   snd (calculate_weights np w v recs sim t) =
   snd (calculate_weights np (with_reliable_reports w) v recs sim t)) /\
  (forall ws tw pr idx node s u k,
     scored v sim node = Some u ->
     send_score_report w (events s) (hotkey node)
       (combined_score ws tw pr idx) node = Some (KeyError k) ->
     score_node w v sim ws tw pr (idx, node) s =
     ({| miner_scores :=
           dict_set Uid_eqb u (combined_score ws tw pr idx) (miner_scores s);
         events :=
           events s ++
           [SendScoreReport (hotkey node) (combined_score ws tw pr idx) node;
            Log ERROR (NodeNotInMetagraph (hotkey node))] |},
      Ok tt)) /\
  (forall ws tw pr idx node s u e rest,
     scored v sim node = Some u ->
     send_score_report w (events s) (hotkey node)
       (combined_score ws tw pr idx) node = Some e ->
     is_KeyError e = false ->
     for_each ((idx, node) :: rest) (score_node w v sim ws tw pr) s =
     ({| miner_scores :=
           dict_set Uid_eqb u (combined_score ws tw pr idx) (miner_scores s);
         events :=
           events s ++
           [SendScoreReport (hotkey node) (combined_score ws tw pr idx) node] |},
      Raise e)).
Proof.
  split; [|split].
  - intros Hw. rewrite (calculate_weights_value np v recs sim t Hw).
    now rewrite (calculate_weights_value np v recs sim t
                   (@reliable_reports_ok w)).
  - intros ws tw pr idx node s u k Hs Hk. rewrite score_node_eq.
    apply scored_Some in Hs as [-> ->]. cbv zeta. rewrite Hk. cbn [is_KeyError].
    now rewrite <- app_assoc.
  - intros ws tw pr idx node s u e rest Hs He Hk.
    rewrite for_each_cons, score_node_eq.
    apply scored_Some in Hs as [-> ->]. cbv zeta. now rewrite He, Hk.
Qed.

Lemma forgetful_world_ok : reports_raise_only_KeyError forgetful_world.
Proof.
  intros t hk score node e. cbn. destruct (String.eqb hk "a"); [|discriminate].
  now intros [= <-].
Qed.

(** The node manager that does not know ["a"]: the miss is logged, ["b"] is
    still scored and reported, and both weights are returned. *)
Lemma report_KeyError_is_absorbed_witness :
  reports_raise_only_KeyError forgetful_world /\
  forall np,
    snd (calculate_weights np forgetful_world sample_validator
           [zero_record "a" (UidInt 1); zero_record "b" (UidInt 2)] false []) =
    snd (calculate_weights np (with_reliable_reports forgetful_world)
           sample_validator
           [zero_record "a" (UidInt 1); zero_record "b" (UidInt 2)] false []) /\
    calculate_weights np forgetful_world sample_validator
      [zero_record "a" (UidInt 1); zero_record "b" (UidInt 2)] false [] =
    ([SendScoreReport "a" 0%float (zero_record "a" (UidInt 1));
      Log ERROR (NodeNotInMetagraph "a");
      SendScoreReport "b" 0%float (zero_record "b" (UidInt 2))],
     Ok ([UidInt 1; UidInt 2], [0%float; 0%float])).
Proof.
  split; [exact forgetful_world_ok|].
  intros np. split.
  - exact (proj1 (report_KeyError_is_absorbed np forgetful_world
                    sample_validator
                    [zero_record "a" (UidInt 1); zero_record "b" (UidInt 2)]
                    false [])
                 forgetful_world_ok).
  - vm_compute. reflexivity.
Defined.

(** C4 as stated fails: a report that raises a connection error aborts the
    call at the first record; the second record is never scored and no result
    is returned. *)
Lemma report_error_aborts_calculation :
  (forall np,
     calculate_weights np unreachable_world sample_validator
       [zero_record "a" (UidInt 1); zero_record "b" (UidInt 2)] false [] =
     ([SendScoreReport "a" 0%float (zero_record "a" (UidInt 1))],
      Raise (OtherError "ConnectionError"))) /\
  (forall np,
     snd (calculate_weights np quiet_world sample_validator
            [zero_record "a" (UidInt 1); zero_record "b" (UidInt 2)] false []) =
     Ok ([UidInt 1; UidInt 2], [0%float; 0%float])).
Proof. split; intros np; vm_compute; reflexivity. Qed.

(** ** The result of the weight calculation *)


Lemma nth_error_enumerate_from A (k : nat) (l : list A) (idx : nat) (x : A) :
  nth_error l idx = Some x -> In ((k + idx)%nat, x) (enumerate_from k l).
Proof.
  revert k idx. induction l as [|y l IH]; intros k idx H.
  - destruct idx; discriminate.
  - rewrite enumerate_from_cons. destruct idx as [|idx]; cbn in H.
    + left. inversion H. now rewrite Nat.add_0_r.
    + right. rewrite Nat.add_succ_r. exact (IH (S k) idx H).
Qed.





(** ** Records without a slot id *)

(** C10: a record whose resolved slot id is [None] (in simulation mode, whose
    own [uid] is [None]) leaves the dictionary and the trace as they are: no
    entry, no report, no log entry.  Over the whole call: no report carries
    such a record, [None] is never among the returned slot ids, and the error
    log names the record's hotkey only if another record with that hotkey
    resolves otherwise.  A failed registry lookup, in contrast, leaves an
    error entry. *)
Theorem none_slot_id_is_skipped_silently (np : NumPy) (w : World) (v : Validator)
    (sim : bool) (node : NodeData) :
  resolved v sim node = Some UidNone ->
  (sim = true -> uid node = UidNone) /\
  (forall ws tw pr idx s,
     score_node w v sim ws tw pr (idx, node) s = (s, Ok tt)) /\
  (forall ws tw pr idx node' s,
     resolved v sim node' = None ->
     score_node w v sim ws tw pr (idx, node') s =
     ({| miner_scores := miner_scores s;
         events := events s ++ [Log ERROR (NodeNotInMetagraph (hotkey node'))] |},
      Ok tt)) /\
  forall recs t,
    exists new,
      fst (calculate_weights np w v recs sim t) = t ++ new /\
      (forall hk score, ~ In (SendScoreReport hk score node) new) /\
      (forall uids weights,
         snd (calculate_weights np w v recs sim t) = Ok (uids, weights) ->
         ~ In UidNone uids) /\
      (Forall (fun n' => hotkey n' = hotkey node ->
                         resolved v sim n' = Some UidNone) recs ->
       ~ In (Log ERROR (NodeNotInMetagraph (hotkey node))) new).
Proof.
  intros Hnone. split; [|split; [|split]].
  - intros ->. cbn in Hnone. congruence.
  - intros ws tw pr idx s. rewrite score_node_eq, Hnone. reflexivity.
  - intros ws tw pr idx node' s Hr. rewrite score_node_eq, Hr. reflexivity.
  - intros recs t.
    destruct recs as [|n0 recs'] eqn:Er.
    { exists [Log WARNING NoNodeData]. rewrite calculate_weights_empty.
      split; [reflexivity|]. split; [|split].
      - intros hk score [H|[]]. discriminate.
      - intros uids weights [= <- _] [].
      - intros _ [H|[]]. discriminate. }
    rewrite <- Er. assert (Hne : recs <> []) by (subst; discriminate).
    destruct (extract_metrics recs) as [[[a b] c]|e] eqn:He.
    + destruct (@calculate_weights_run np w v recs sim t a b c Hne He)
        as (new & r & E & F & P).
      exists new. rewrite E. cbn [fst snd]. rewrite Forall_forall in F.
      split; [reflexivity|]. split; [|split].
      * intros hk score Hin. apply F in Hin as (idx & u & _ & _ & _ & Hs).
        apply scored_Some in Hs as [Hr Hn]. rewrite Hnone in Hr.
        inversion Hr; subst. discriminate.
      * intros uids weights Hr Hin.
        destruct (P (or_intror (ex_intro _ _ Hr))) as [Hv _].
        rewrite Hr in Hv. unfold finish_value in Hv.
        destruct (sorted_uids _) as [s|] eqn:Es; [|discriminate].
        destruct (weights_of _ s); [|discriminate].
        inversion Hv; subst s. apply sorted_uids_perm in Es.
        apply (Permutation_in _ Es) in Hin.
        apply pure_scores_keys in Hin as [[]|(p & _ & Hs)].
        apply scored_Some in Hs as [_ Hn]. discriminate.
      * intros Hall Hin. apply F in Hin as (idx & n' & Hn' & Hhk & Hr).
        apply In_enumerate in Hn'. rewrite Forall_forall in Hall.
        apply Hr. apply Hall; [exact Hn' | congruence].
    + rewrite (@calculate_weights_overflow np w v recs sim t e Hne He).
      exists []. rewrite app_nil_r. split; [reflexivity|].
      split; [|split]; try (intros; intros []). intros uids weights H; discriminate.
Qed.

Lemma none_slot_id_is_skipped_silently_witness :
  resolved sample_validator true (zero_record "c" UidNone) = Some UidNone /\
  (forall np w ws tw pr idx s,
     score_node w sample_validator true ws tw pr
       (idx, zero_record "c" UidNone) s = (s, Ok tt) /\
     calculate_weights np quiet_world sample_validator
       [zero_record "c" UidNone] true [] = ([], Ok ([], []))).
Proof.
  split; [reflexivity|].
  intros np w ws tw pr idx s. split.
  - exact (proj1 (proj2 (none_slot_id_is_skipped_silently np w
                           sample_validator true (zero_record "c" UidNone)
                           eq_refl)) ws tw pr idx s).
  - vm_compute. reflexivity.
Defined.

(** ** The publisher: the whole cycle *)

Lemma wait_for_interval_eq b m t :
  wait_for_interval b m t = (after_interval t b m, Ok tt).
Proof.
  unfold wait_for_interval, after_interval, sleep, emit, modify, ret.
  destruct b as [b|]; [|reflexivity]. now destruct (b <? m).
Qed.

(** [set_weights], step by step. *)
Lemma set_weights_eq np w v t :
  set_weights np w v t =
  let t1 := t ++ [GetSubstrate] in
  match get_substrate w t with
  | Some e => (t1, Raise e)
  | None =>
      match dict_get String.eqb (keypair_ss58_address v) (metagraph_nodes v) with
      | None => (t1, Raise (KeyError (keypair_ss58_address v)))
      | Some n =>
          let vid := node_id n in
          let t2 := t1 ++ [BlocksSinceLastUpdate vid] in
          match blocks_since_last_update w t1 vid with
          | Raise e => (t2, Raise e)
          | Ok b =>
              let t3 := t2 ++ [MinIntervalToSetWeights] in
              match min_interval_to_set_weights w t2 with
              | Raise e => (t3, Raise e)
              | Ok m =>
                  match calculate_weights np w v (_get_delta_node_data v) false
                          (after_interval t3 b m) with
                  | (t5, Raise e) => (t5, Raise e)
                  | (t5, Ok r) => submit w (fst r) (snd r) vid t5
                  end
              end
          end
      end
  end.
Proof.
  cbv zeta. unfold set_weights, call_get_substrate, call, lookup_node_id.
  unfold bind at 1. destruct (get_substrate w t); [reflexivity|].
  unfold bind at 1.
  destruct (dict_get String.eqb (keypair_ss58_address v) (metagraph_nodes v))
    as [n|]; [|reflexivity].
  unfold ret at 1. unfold bind at 1.
  destruct (blocks_since_last_update w _ (node_id n)) as [b|e]; [|reflexivity].
  unfold bind at 1.
  destruct (min_interval_to_set_weights w _) as [m|e]; [|reflexivity].
  unfold bind at 1. rewrite wait_for_interval_eq.
  unfold bind at 1.
  destruct (calculate_weights np w v (_get_delta_node_data v) false _)
    as [t5 [r|e]]; reflexivity.
Qed.

Lemma calc_event_not_submission (l : trace) :
  forallb calc_event l = true ->
  filter is_submission l = [] /\ filter is_interval_query l = [] /\
  filter is_sleep l = [].
Proof.
  induction l as [|e l IH]; [now repeat split|].
  cbn [forallb]. intros H. apply andb_true_iff in H as [He Hl].
  destruct (IH Hl) as (A & B & C).
  destruct e; cbn in *; try discriminate; now repeat split.
Qed.


Lemma filter_nil_In (A : Type) (p : A -> bool) (l : list A) (x : A) :
  filter p l = [] -> In x l -> p x = false.
Proof.
  intros H Hin. destruct (p x) eqn:E; [|reflexivity].
  assert (Hx : In x (filter p l)) by (apply filter_In; now split).
  rewrite H in Hx. destruct Hx.
Qed.

(** The submission loop asks the ledger nothing about the interval. *)
Lemma submit_no_query (w : World) (uids : list Uid) (scores : list float)
    (vid : Uid) (t : trace) :
  exists new,
    submit w uids scores vid t = (t ++ new, Ok tt) /\
    filter is_interval_query new = [].
Proof.
  rewrite submit_unrolled. cbv zeta.
  assert (Hq : forall n o, is_interval_query (attempt_log n o) = false)
    by (intros n [b|e]; reflexivity).
  repeat match goal with
         | |- context [if succeeded ?o then _ else _] => destruct (succeeded o)
         end;
    eexists; rewrite <- ?app_assoc; (split; [reflexivity|]);
    cbn; rewrite ?Hq; reflexivity.
Qed.





(** Three refusals: three submissions, two sleeps of ten seconds, the failure
    entry, no fourth attempt and no exception. *)
Example three_refusals_end_the_cycle (np : NumPy) :
  set_weights np refusing_world lone_validator [] =
  ([GetSubstrate; BlocksSinceLastUpdate (UidInt 9); MinIntervalToSetWeights;
    SendScoreReport "val" 0%float (zero_record "val" (UidInt 9));
    SetNodeWeights [UidInt 9] [0%float] (UidInt 9);
    Log ERROR (FailedAttempt 1); Sleep 10;
    SetNodeWeights [UidInt 9] [0%float] (UidInt 9);
    Log ERROR (FailedAttempt 2); Sleep 10;
    SetNodeWeights [UidInt 9] [0%float] (UidInt 9);
    Log ERROR (FailedAttempt 3); Log ERROR FailedAllAttempts],
   Ok tt).
Proof. vm_compute. reflexivity. Qed.




(** ** The delta engine on the sample registry and store *)

Example sample_delta_node_data :
  map (fun d => (hotkey d, uid d, timestamp d, web_success d))
      (_get_delta_node_data sample_validator) =
  [("a", UidInt 1, 30, 3); ("b", UidInt 2, 0, 0); ("x", UidInt 0, 0, 0);
   ("c", UidInt 3, 0, 0); ("val", UidInt 9, 0, 0)].
Proof. reflexivity. Qed.

Lemma delta_exactly_one_record_per_registry_node_witness :
  NoDup (get_all_hotkeys_with_telemetry (telemetry_storage sample_validator)) /\
  NoDup (registry_hotkeys sample_validator) /\
  NoDup (map hotkey (_get_delta_node_data sample_validator)) /\
  forall hk, In hk ["a"; "b"; "c"; "val"] ->
    count_occ string_dec (map hotkey (_get_delta_node_data sample_validator)) hk
    = 1%nat.
Proof.
  assert (Hs : NoDup (get_all_hotkeys_with_telemetry
                        (telemetry_storage sample_validator))).
  { cbn. repeat constructor; cbn; intuition discriminate. }
  assert (Hr : NoDup (registry_hotkeys sample_validator)).
  { cbn. repeat constructor; cbn; intuition discriminate. }
  split; [exact Hs|]. split; [exact Hr|].
  exact (delta_exactly_one_record_per_registry_node sample_validator Hs Hr).
Defined.

(** * Further properties *)

(** ** Which snapshots are the latest and the oldest *)

Lemma insert_desc_pushed_back (x : NodeData) (s : list NodeData) :
  Forall (fun y => timestamp x < timestamp y) s -> insert_desc x s = s ++ [x].
Proof.
  induction 1 as [|y s Hy _ IH]; [reflexivity|]. cbn.
  destruct (Z.ltb_spec (timestamp x) (timestamp y)); [now rewrite IH | lia].
Qed.

Lemma insert_desc_kept_in_front (x : NodeData) (s : list NodeData) :
  Forall (fun y => timestamp y <= timestamp x) s -> insert_desc x s = x :: s.
Proof.
  intros H. destruct s as [|y s]; [reflexivity|]. cbn.
  inversion H; subst.
  destruct (Z.ltb_spec (timestamp x) (timestamp y)); [lia | reflexivity].
Qed.

Lemma last_after_head (A : Type) (y d : A) (l : list A) :
  l <> [] -> last (y :: l) d = last l d.
Proof. destruct l; [contradiction | reflexivity]. Qed.

Lemma insert_desc_not_nil (x : NodeData) (s : list NodeData) :
  insert_desc x s <> [].
Proof.
  intros E. apply (f_equal (@List.length _)) in E.
  rewrite (Permutation_length (insert_desc_perm x s)) in E. discriminate.
Qed.

Lemma insert_desc_last (x : NodeData) (s : list NodeData) (d : NodeData) :
  StronglySorted newer_first s -> s <> [] ->
  last (insert_desc x s) d =
  if timestamp x <? timestamp (last s d) then x else last s d.
Proof.
  induction 1 as [|y s Hs IH Hy]; intros Hne; [contradiction|].
  destruct s as [|y2 s2].
  - cbn. destruct (timestamp x <? timestamp y); reflexivity.
  - assert (Hs' : y2 :: s2 <> []) by discriminate.
    revert IH Hy Hs'. generalize (y2 :: s2) as s'. intros s' IH Hy Hs'.
    cbn [insert_desc].
    destruct (Z.ltb_spec (timestamp x) (timestamp y)) as [Hlt|Hge].
    + rewrite last_after_head by apply insert_desc_not_nil.
      rewrite IH by exact Hs'.
      now rewrite (last_after_head y d Hs').
    + assert (Hys : y :: s' <> []) by discriminate.
      rewrite (last_after_head x d Hys), (last_after_head y d Hs').
      assert (Hl : timestamp (last s' d) <= timestamp y).
      { assert (Hin : In (last s' d) s').
        { destruct (exists_last Hs') as (l' & a & E).
          rewrite E, last_last. apply in_or_app. right. now left. }
        rewrite Forall_forall in Hy. apply (Hy _ Hin). }
      destruct (Z.ltb_spec (timestamp x) (timestamp (last s' d)));
        [lia | reflexivity].
Qed.

Lemma sorted_desc_nonempty (l : list NodeData) : l <> [] -> sorted_desc l <> [].
Proof.
  intros Hne E. apply (f_equal (@List.length _)) in E.
  rewrite sorted_desc_length in E. destruct l; [contradiction | discriminate].
Qed.

(** The first element of the sort is the first stored among the newest. *)
Lemma sorted_desc_latest (l : list NodeData) (latest : NodeData)
    (rest : list NodeData) :
  sorted_desc l = latest :: rest ->
  exists pre post,
    l = pre ++ latest :: post /\
    Forall (fun x => timestamp x < timestamp latest) pre /\
    Forall (fun x => timestamp x <= timestamp latest) post.
Proof.
  revert latest rest. induction l as [|x l IH]; intros latest rest E;
    [discriminate|].
  cbn [sorted_desc fold_right] in E. fold (sorted_desc l) in E.
  destruct (sorted_desc l) as [|y s'] eqn:Es.
  - assert (l = []) as ->.
    { apply (f_equal (@List.length _)) in Es. rewrite sorted_desc_length in Es.
      now destruct l. }
    cbn in E. inversion E; subst. exists [], []. now repeat split.
  - destruct (IH y s' eq_refl) as (pre & post & El & Hpre & Hpost).
    cbn [insert_desc] in E.
    destruct (Z.ltb_spec (timestamp x) (timestamp y)) as [Hlt|Hge];
      inversion E; subst.
    + exists (x :: pre), post. repeat split; [|exact Hpost].
      now constructor.
    + exists [], (pre ++ y :: post). split; [reflexivity|].
      split; [constructor|].
      apply Forall_app. split; [|constructor].
      * eapply Forall_impl; [|exact Hpre]. cbn. intros; lia.
      * exact Hge.
      * eapply Forall_impl; [|exact Hpost]. cbn. intros; lia.
Qed.

(** The last element of the sort is the last stored among the oldest. *)
Lemma sorted_desc_oldest (l : list NodeData) (d oldest : NodeData) :
  l <> [] -> last (sorted_desc l) d = oldest ->
  exists pre post,
    l = pre ++ oldest :: post /\
    Forall (fun x => timestamp oldest <= timestamp x) pre /\
    Forall (fun x => timestamp oldest < timestamp x) post.
Proof.
  revert oldest. induction l as [|x l IH]; intros oldest Hne E; [contradiction|].
  cbn [sorted_desc fold_right] in E. fold (sorted_desc l) in E.
  destruct l as [|x2 l2].
  - cbn in E. subst. exists [], []. now repeat split.
  - rewrite insert_desc_last in E;
      [|apply sorted_desc_sorted | apply sorted_desc_nonempty; discriminate].
    destruct (IH (last (sorted_desc (x2 :: l2)) d)) as
      (pre & post & El & Hpre & Hpost); [discriminate | reflexivity|].
    remember (last (sorted_desc (x2 :: l2)) d) as o eqn:Eo. clear Eo.
    destruct (Z.ltb_spec (timestamp x) (timestamp o)) as [Hlt|Hge];
      subst oldest.
    + exists [], (x2 :: l2). split; [reflexivity|]. split; [constructor|].
      rewrite El. apply Forall_app. split; [|constructor].
      * eapply Forall_impl; [|exact Hpre]. intros a Ha. cbv beta in *. lia.
      * exact Hlt.
      * eapply Forall_impl; [|exact Hpost]. intros a Ha. cbv beta in *. lia.
    + exists (x :: pre), post. rewrite El at 1. split; [reflexivity|].
      split; [|exact Hpost]. now constructor.
Qed.

Lemma sorted_desc_of_descending (l : list NodeData) :
  StronglySorted newer_first l -> sorted_desc l = l.
Proof.
  induction 1 as [|x l Hs IH Hx]; [reflexivity|].
  cbn [sorted_desc fold_right]. fold (sorted_desc l). rewrite IH.
  now apply insert_desc_kept_in_front.
Qed.

Lemma sorted_desc_of_ascending (l : list NodeData) :
  StronglySorted (fun a b => timestamp a < timestamp b) l ->
  sorted_desc l = rev l.
Proof.
  induction 1 as [|x l Hs IH Hx]; [reflexivity|].
  cbn [sorted_desc fold_right rev]. fold (sorted_desc l). rewrite IH.
  apply insert_desc_pushed_back.
  rewrite Forall_forall in *. intros y Hy. apply Hx. now apply in_rev.
Qed.

(** What [record_for] builds from two snapshots or more. *)
Lemma record_for_delta st ah hk latest middle oldest :
  sorted_desc (get_telemetry_by_hotkey st hk) = latest :: middle ++ [oldest] ->
  record_for st ah hk = delta_of hk latest oldest.
Proof.
  intros E. unfold record_for. rewrite E. cbn [hd].
  rewrite app_comm_cons, last_last.
  rewrite length_app. cbn [List.length].
  destruct (Nat.leb_spec 2 (S (List.length middle) + 1)); [reflexivity | lia].
Qed.

(** X1: for an identifier the store lists with two snapshots or more, the
    record is built from the snapshot stored first among those with the
    greatest timestamp (as latest) and the snapshot stored last among those
    with the least timestamp (as oldest). *)
Theorem delta_latest_and_oldest_by_position (v : Validator) (hk : string)
    (d : NodeData) :
  let tel := get_telemetry_by_hotkey (telemetry_storage v) hk in
  In hk (get_all_hotkeys_with_telemetry (telemetry_storage v)) ->
  In d (_get_delta_node_data v) ->
  hotkey d = hk ->
  (2 <= List.length tel)%nat ->
  exists latest oldest before_latest after_latest before_oldest after_oldest,
    tel = before_latest ++ latest :: after_latest /\
    Forall (fun x => timestamp x < timestamp latest) before_latest /\
    Forall (fun x => timestamp x <= timestamp latest) after_latest /\
    tel = before_oldest ++ oldest :: after_oldest /\
    Forall (fun x => timestamp oldest <= timestamp x) before_oldest /\
    Forall (fun x => timestamp oldest < timestamp x) after_oldest /\
    d = delta_of hk latest oldest.
Proof.
  intros tel Hl Hin Hhk Hlen.
  apply in_delta_node_data in Hin. rewrite Hhk in Hin.
  destruct Hin as [[_ E]|[Hn _]]; [|contradiction].
  assert (Hlen' : (2 <= List.length (sorted_desc tel))%nat)
    by now rewrite sorted_desc_length.
  destruct (first_last_split _ Hlen') as (latest & middle & oldest & Es).
  rewrite (@record_for_delta (telemetry_storage v)
             (all_hotkeys_of (metagraph_nodes v)) hk latest middle oldest Es) in E.
  destruct (@sorted_desc_latest tel latest (middle ++ [oldest]) Es)
    as (p1 & q1 & E1 & A1 & B1).
  destruct (@sorted_desc_oldest tel latest oldest) as (p2 & q2 & E2 & A2 & B2).
  - intros E0. fold tel in Hlen. rewrite E0 in Hlen. cbn in Hlen. lia.
  - rewrite Es, app_comm_cons. apply last_last.
  - exists latest, oldest, p1, q1, p2, q2. now repeat split.
Qed.

Lemma delta_latest_and_oldest_by_position_witness :
  exists latest oldest before_latest after_latest before_oldest after_oldest,
    get_telemetry_by_hotkey sample_storage "a" =
      before_latest ++ latest :: after_latest /\
    Forall (fun x => timestamp x < timestamp latest) before_latest /\
    Forall (fun x => timestamp x <= timestamp latest) after_latest /\
    get_telemetry_by_hotkey sample_storage "a" =
      before_oldest ++ oldest :: after_oldest /\
    Forall (fun x => timestamp oldest <= timestamp x) before_oldest /\
    Forall (fun x => timestamp oldest < timestamp x) after_oldest /\
    delta_of "a" (snapshot "a" (UidInt 1) 30 9) (snapshot "a" (UidInt 1) 10 6) =
    delta_of "a" latest oldest.
Proof.
  apply (@delta_latest_and_oldest_by_position sample_validator "a"
           (delta_of "a" (snapshot "a" (UidInt 1) 30 9)
                         (snapshot "a" (UidInt 1) 10 6))).
  - cbn. now left.
  - cbn. now left.
  - reflexivity.
  - cbn. lia.
Defined.

(** X2: when the snapshots of a listed identifier are stored in strictly
    increasing order of timestamp, its record is the last stored snapshot
    minus the first stored one; when they are stored newest first, or all
    carry one timestamp, it is the first stored minus the last stored. *)
Theorem delta_of_ordered_snapshots (v : Validator) (hk : string) (d : NodeData)
    (first last_one : NodeData) (middle : list NodeData) :
  In hk (get_all_hotkeys_with_telemetry (telemetry_storage v)) ->
  In d (_get_delta_node_data v) ->
  hotkey d = hk ->
  get_telemetry_by_hotkey (telemetry_storage v) hk =
    first :: middle ++ [last_one] ->
  (StronglySorted (fun a b => timestamp a < timestamp b)
     (first :: middle ++ [last_one]) ->
   d = delta_of hk last_one first) /\
  (StronglySorted newer_first (first :: middle ++ [last_one]) ->
   d = delta_of hk first last_one).
Proof.
  intros Hl Hin Hhk Et.
  apply in_delta_node_data in Hin. rewrite Hhk in Hin.
  destruct Hin as [[_ E]|[Hn _]]; [|contradiction].
  split; intros Hs.
  - rewrite E. apply record_for_delta with (middle := rev middle).
    rewrite Et, (@sorted_desc_of_ascending _ Hs).
    cbn [rev]. rewrite rev_app_distr. reflexivity.
  - rewrite E. apply record_for_delta with (middle := middle).
    now rewrite Et, (@sorted_desc_of_descending _ Hs).
Qed.

Lemma delta_of_ordered_snapshots_witness :
  StronglySorted (fun a b => timestamp a < timestamp b)
    (get_telemetry_by_hotkey (telemetry_storage ordered_validator) "m") /\
  hd (zero_record "m" UidNone) (_get_delta_node_data ordered_validator) =
    delta_of "m" (snapshot "m" (UidInt 4) 30 9) (snapshot "m" (UidInt 4) 10 1) /\
  web_success (delta_of "m" (snapshot "m" (UidInt 4) 30 9)
                             (snapshot "m" (UidInt 4) 10 1)) = 8.
Proof.
  assert (Hs : StronglySorted (fun a b => timestamp a < timestamp b)
                 (get_telemetry_by_hotkey (telemetry_storage ordered_validator) "m")).
  { cbn. repeat constructor; cbn; lia. }
  split; [exact Hs|]. split; [|reflexivity].
  assert (Hin : In (hd (zero_record "m" UidNone)
                       (_get_delta_node_data ordered_validator))
                   (_get_delta_node_data ordered_validator))
    by (cbn; now left).
  exact (proj1 (@delta_of_ordered_snapshots ordered_validator "m"
                  (hd (zero_record "m" UidNone)
                      (_get_delta_node_data ordered_validator))
                  (snapshot "m" (UidInt 4) 10 1) (snapshot "m" (UidInt 4) 30 9)
                  [snapshot "m" (UidInt 4) 20 4]
                  (or_introl eq_refl) Hin eq_refl eq_refl) Hs).
Defined.

(** ** The order and the identifiers of the delta records *)



(** ** A cycle always has records to score *)

Lemma all_hotkeys_of_nonempty (nodes : list (string * Node)) :
  nodes <> [] -> all_hotkeys_of nodes <> [].
Proof.
  destruct nodes as [|[k n] nodes]; [contradiction|]. intros _.
  unfold all_hotkeys_of. cbn [flat_map fst dict_get].
  rewrite String.eqb_refl. discriminate.
Qed.

Lemma delta_nonempty (v : Validator) :
  metagraph_nodes v <> [] -> _get_delta_node_data v <> [].
Proof.
  intros Hne E. apply all_hotkeys_of_nonempty in Hne.
  apply (f_equal (map hotkey)) in E. rewrite delta_hotkeys in E. cbn [map] in E.
  apply app_eq_nil in E as [El Er]. rewrite El in Er. cbn [rev] in Er.
  destruct (all_hotkeys_of (metagraph_nodes v)) as [|e ah]; [contradiction|].
  discriminate.
Qed.

Lemma loop_event_report_or_error v sim ws tw pr l e :
  loop_event v sim ws tw pr l e -> report_or_error e = true.
Proof. destruct e as [[] []| | | | | |]; cbn; tauto. Qed.

Lemma calculate_weights_events_nonempty np w v recs sim t :
  recs <> [] ->
  exists new,
    fst (calculate_weights np w v recs sim t) = t ++ new /\
    forallb report_or_error new = true.
Proof.
  intros Hne. destruct (extract_metrics recs) as [[[a b] c]|e] eqn:He.
  - destruct (@calculate_weights_run np w v recs sim t a b c Hne He)
      as (new & r & E & F & _).
    exists new. rewrite E. split; [reflexivity|].
    apply forallb_forall. rewrite Forall_forall in F.
    intros e He'. eapply loop_event_report_or_error, F, He'.
  - rewrite (@calculate_weights_overflow np w v recs sim t e Hne He).
    exists []. now rewrite app_nil_r.
Qed.

(** What the submission loop adds satisfies every predicate that holds of
    the submission, of a ten-second sleep and of the error entries. *)
Lemma submit_events_forall (P : event -> bool) (w : World) (uids : list Uid)
    (scores : list float) (vid : Uid) (t : trace) :
  P (SetNodeWeights uids scores vid) = true ->
  P (Sleep 10) = true ->
  (forall m, P (Log ERROR m) = true) ->
  exists new,
    submit w uids scores vid t = (t ++ new, Ok tt) /\ forallb P new = true.
Proof.
  intros HS HZ HL. rewrite submit_unrolled. cbv zeta.
  assert (Hq : forall n o, P (attempt_log n o) = true)
    by (intros n [b|e]; apply HL).
  repeat match goal with
         | |- context [if succeeded ?o then _ else _] => destruct (succeeded o)
         end;
    eexists; rewrite <- ?app_assoc; (split; [reflexivity|]);
    cbn; rewrite ?HS, ?HZ, ?Hq, ?HL; reflexivity.
Qed.

Lemma Uid_eqb_refl (u : Uid) : Uid_eqb u u = true.
Proof. now destruct (Uid_eqb_spec u u). Qed.

(** A cycle in three parts: the prelude, the weight calculation over a
    list that is not empty, the submission loop. *)
Lemma set_weights_parts np w v t :
  exists prelude calc sub,
    fst (set_weights np w v t) = t ++ prelude ++ calc ++ sub /\
    forallb (prelude_event (own_slot_id v)) prelude = true /\
    forallb report_or_error calc = true /\
    forallb (submission_event (own_slot_id v)) sub = true.
Proof.
  rewrite set_weights_eq. cbv zeta. unfold own_slot_id.
  destruct (get_substrate w t) as [e|].
  { exists [GetSubstrate], [], []. now repeat split. }
  destruct (dict_get String.eqb (keypair_ss58_address v) (metagraph_nodes v))
    as [n|] eqn:En.
  2:{ exists [GetSubstrate], [], []. now repeat split. }
  cbn [option_map].
  assert (Hne : _get_delta_node_data v <> []).
  { apply delta_nonempty. intros E0. rewrite E0 in En. discriminate. }
  destruct (blocks_since_last_update w _ (node_id n)) as [b|e].
  2:{ exists [GetSubstrate; BlocksSinceLastUpdate (node_id n)], [], [].
      cbn. rewrite Uid_eqb_refl, <- app_assoc. now repeat split. }
  destruct (min_interval_to_set_weights w _) as [m|e].
  2:{ exists [GetSubstrate; BlocksSinceLastUpdate (node_id n);
              MinIntervalToSetWeights], [], [].
      cbn. rewrite Uid_eqb_refl, <- !app_assoc. now repeat split. }
  set (t3 := ((t ++ [GetSubstrate]) ++ [BlocksSinceLastUpdate (node_id n)]) ++
             [MinIntervalToSetWeights]).
  assert (H4 : exists p4, after_interval t3 b m = t ++ p4 /\
                          forallb (prelude_event (Some (node_id n))) p4 = true).
  { unfold after_interval, t3. destruct b as [b|]; [destruct (b <? m)|];
      eexists; rewrite <- !app_assoc; (split; [reflexivity|]);
      cbn; now rewrite Uid_eqb_refl. }
  destruct H4 as (p4 & E4 & F4). rewrite E4.
  destruct (@calculate_weights_events_nonempty np w v (_get_delta_node_data v)
              false (t ++ p4) Hne) as (new & En' & Fn).
  destruct (calculate_weights np w v (_get_delta_node_data v) false (t ++ p4))
    as [t5 [[uids scores]|e]]; cbn [fst snd] in *; subst t5.
  - destruct (@submit_events_forall (submission_event (Some (node_id n))) w
                uids scores (node_id n) ((t ++ p4) ++ new))
      as (sub & Es & Fs); [cbn; apply Uid_eqb_refl | reflexivity | reflexivity|].
    rewrite Es. cbn [fst]. exists p4, new, sub.
    rewrite <- !app_assoc. now repeat split.
  - exists p4, new, []. rewrite app_nil_r, <- app_assoc. now repeat split.
Qed.

Lemma filter_none (A : Type) (P Q : A -> bool) (l : list A) :
  forallb P l = true -> (forall x, P x = true -> Q x = false) ->
  filter Q l = [].
Proof.
  intros Hl Hpq. induction l as [|x l IH]; [reflexivity|].
  cbn in *. apply andb_true_iff in Hl as [Hx Hl].
  rewrite (Hpq x Hx). now apply IH.
Qed.

(** X4: the delta engine returns at least one record whenever the registry
    is not empty; a cycle therefore never computes weights over an empty
    list, and never logs a warning. *)
Theorem cycle_always_has_records (np : NumPy) (w : World) (v : Validator)
    (t : trace) :
  (metagraph_nodes v <> [] -> _get_delta_node_data v <> []) /\
  exists new,
    fst (set_weights np w v t) = t ++ new /\ filter is_warning new = [].
Proof.
  split; [apply delta_nonempty|].
  destruct (set_weights_parts np w v t) as (p & c & s & E & Fp & Fc & Fs).
  exists (p ++ c ++ s). split; [exact E|].
  rewrite !filter_app.
  rewrite (filter_none _ is_warning _ Fp), (filter_none _ is_warning _ Fc),
    (filter_none _ is_warning _ Fs); [reflexivity| | |].
  - intros [[] m| | | | | |]; cbn; congruence.
  - intros [[] m| | | | | |]; cbn; congruence.
  - intros [[] m| | | | | |]; cbn; congruence.
Qed.

(** X5: in a cycle every score report is sent before the first submission
    to the ledger: the trace splits into a part without submissions and a
    part without reports. *)
Theorem reports_precede_submissions (np : NumPy) (w : World) (v : Validator)
    (t : trace) :
  exists before after,
    fst (set_weights np w v t) = t ++ before ++ after /\
    filter is_submission before = [] /\
    filter is_report after = [].
Proof.
  destruct (set_weights_parts np w v t) as (p & c & s & E & Fp & Fc & Fs).
  exists (p ++ c), s. split; [now rewrite <- app_assoc|]. split.
  - rewrite filter_app, (filter_none _ is_submission _ Fp),
      (filter_none _ is_submission _ Fc); [reflexivity| |].
    + intros [[] m| | | | | |]; cbn; congruence.
    + intros [[] m| | | | | |]; cbn; congruence.
  - apply (filter_none _ is_report _ Fs).
    intros [[] m| | | | | |]; cbn; congruence.
Qed.

(** X6: the ledger is asked about, and every submission is made under, the
    slot id the registry holds for the validator's own address. *)
Theorem cycle_uses_own_slot_id (np : NumPy) (w : World) (v : Validator)
    (t : trace) :
  exists new,
    fst (set_weights np w v t) = t ++ new /\
    forall vid,
      In (BlocksSinceLastUpdate vid) new \/
      (exists uids scores, In (SetNodeWeights uids scores vid) new) ->
      exists n,
        dict_get String.eqb (keypair_ss58_address v) (metagraph_nodes v) = Some n /\
        vid = node_id n.
Proof.
  destruct (set_weights_parts np w v t) as (p & c & s & E & Fp & Fc & Fs).
  exists (p ++ c ++ s). split; [exact E|].
  rewrite forallb_forall in Fp, Fc, Fs. unfold own_slot_id in *.
  assert (Hown : forall vid u,
             option_map node_id
               (dict_get String.eqb (keypair_ss58_address v) (metagraph_nodes v))
             = Some u -> Uid_eqb vid u = true ->
             exists n, dict_get String.eqb (keypair_ss58_address v)
                         (metagraph_nodes v) = Some n /\ vid = node_id n).
  { intros vid u Ho He.
    destruct (dict_get String.eqb (keypair_ss58_address v) (metagraph_nodes v))
      as [n|]; [|discriminate].
    exists n. split; [reflexivity|]. cbn in Ho. inversion Ho; subst.
    now destruct (Uid_eqb_spec vid (node_id n)). }
  intros vid [Hin|(uids & scores & Hin)];
    apply in_app_or in Hin as [Hin|Hin];
    try (apply in_app_or in Hin as [Hin|Hin]);
    try (apply Fp in Hin); try (apply Fc in Hin); try (apply Fs in Hin);
    cbn in Hin; try discriminate;
    destruct (option_map node_id _) as [u|] eqn:Ho; try discriminate;
    now apply (Hown vid u).
Qed.

(** X7: when the blocks since the last update are unknown, or not fewer than
    the minimum interval, the cycle does not suspend before computing: the
    only suspensions are the ten seconds between submission attempts. *)
Theorem no_wait_when_interval_elapsed (np : NumPy) (w : World) (v : Validator)
    (t : trace) (n : Node) (b : option Z) (m : Z) :
  get_substrate w t = None ->
  dict_get String.eqb (keypair_ss58_address v) (metagraph_nodes v) = Some n ->
  blocks_since_last_update w (t ++ [GetSubstrate]) (node_id n) = Ok b ->
  min_interval_to_set_weights w
    (t ++ [GetSubstrate; BlocksSinceLastUpdate (node_id n)]) = Ok m ->
  (b = None \/ exists b', b = Some b' /\ m <= b') ->
  exists rest,
    fst (set_weights np w v t) =
      t ++ [GetSubstrate; BlocksSinceLastUpdate (node_id n);
            MinIntervalToSetWeights] ++ rest /\
    filter is_interval_query rest = [] /\
    (forall s, In (Sleep s) rest -> s = 10).
Proof.
  intros Hs Hn Hb Hm Hcase. rewrite set_weights_eq. cbv zeta.
  rewrite Hs, Hn, Hb. rewrite <- (app_assoc t [GetSubstrate]). cbn [app].
  rewrite Hm.
  assert (Ea : forall t3, after_interval t3 b m = t3).
  { intros t3. unfold after_interval.
    destruct Hcase as [->|(b' & -> & Hle)]; [reflexivity|].
    destruct (Z.ltb_spec b' m); [lia | reflexivity]. }
  rewrite Ea, <- !app_assoc. cbn [app].
  set (t4 := t ++ [GetSubstrate; BlocksSinceLastUpdate (node_id n);
                   MinIntervalToSetWeights]).
  destruct (calculate_weights_events np w v (_get_delta_node_data v) false t4)
    as (new & En & Fn).
  apply calc_event_not_submission in Fn as (_ & Fq & Fs).
  destruct (calculate_weights np w v (_get_delta_node_data v) false t4)
    as [t5 [[uids scores]|e]]; cbn [fst snd] in *; subst t5.
  - destruct (submit_events w uids scores (node_id n) (t4 ++ new))
      as (sub & Es & _ & _ & Hsl & _).
    destruct (submit_no_query w uids scores (node_id n) (t4 ++ new))
      as (sub' & Es' & Hq).
    rewrite Es in Es'. inversion Es' as [E]. apply app_inv_head in E. subst sub'.
    rewrite Es. cbn [fst]. exists (new ++ sub). unfold t4.
    rewrite <- !app_assoc. cbn [app]. split; [reflexivity|].
    split; [now rewrite filter_app, Fq, Hq|].
    intros s Hin. apply in_app_or in Hin as [Hin|Hin]; [|now apply Hsl].
    apply (filter_nil_In _ _ _ Fs) in Hin. discriminate.
  - exists new. unfold t4. rewrite <- !app_assoc. cbn [app].
    split; [reflexivity|]. split; [exact Fq|].
    intros s Hin. apply (filter_nil_In _ _ _ Fs) in Hin. discriminate.
Qed.

Lemma no_wait_when_interval_elapsed_witness :
  blocks_since_last_update refusing_world [GetSubstrate] (UidInt 9) = Ok None /\
  forall np,
    exists rest,
      fst (set_weights np refusing_world lone_validator []) =
        [GetSubstrate; BlocksSinceLastUpdate (UidInt 9);
         MinIntervalToSetWeights] ++ rest /\
      filter is_interval_query rest = [] /\
      (forall s, In (Sleep s) rest -> s = 10).
Proof.
  split; [reflexivity|]. intros np.
  exact (@no_wait_when_interval_elapsed np refusing_world lone_validator []
           (mkNode (UidInt 9) "val") None 20 eq_refl eq_refl eq_refl eq_refl
           (or_introl eq_refl)).
Defined.

(** ** More on the weight calculation *)

Lemma score_loop_exact w v sim ws tw pr l s :
  reports_never_fail w ->
  for_each l (score_node w v sim ws tw pr) s =
  ({| miner_scores := pure_scores v sim ws tw pr l (miner_scores s);
      events := events s ++ flat_map (iteration_events v sim ws tw pr) l |},
   Ok tt).
Proof.
  intros Hw. revert s. induction l as [|[idx node] l IH]; intros s.
  - cbn. rewrite app_nil_r. now destruct s.
  - rewrite for_each_cons, score_node_eq.
    unfold pure_scores. cbn [fold_left flat_map].
    unfold score_step at 2, iteration_events at 1, scored. cbn [fst snd].
    destruct (resolved v sim node) as [u|].
    + destruct (is_None u).
      * rewrite IH. reflexivity.
      * cbv zeta. rewrite Hw, IH. cbn [miner_scores events].
        now rewrite <- app_assoc.
    + rewrite IH. cbn [miner_scores events]. now rewrite <- app_assoc.
Qed.

(** The trace of a calculation whose reports do not fail: the events of the
    iterations, one after the other; sorting and the final lookups add
    nothing to it, also when they raise. *)
Lemma calculate_weights_trace_of_iterations (np : NumPy) (w : World)
    (v : Validator) (recs : list NodeData) (sim : bool) (t : trace)
    (a b c : list float) :
  reports_never_fail w ->
  recs <> [] ->
  extract_metrics recs = Ok (a, b, c) ->
  fst (calculate_weights np w v recs sim t) =
  t ++ flat_map
         (iteration_events v sim (apply_kurtosis_default np a)
            (apply_kurtosis_default np b) (apply_kurtosis_default np c))
         (enumerate recs).
Proof.
  intros Hw Hne He. unfold calculate_weights, calculate_weights_body.
  destruct recs as [|n0 recs']; [contradiction|]. rewrite He.
  cbv zeta. unfold bind. rewrite (score_loop_exact _ _ _ _ _ _ _ Hw).
  rewrite finish_eq. reflexivity.
Qed.

(** X8: with a node manager that never fails and counters that fit a
    double, the trace of a weight calculation over at least one record is,
    record by record and in order: one error entry when the registry lookup
    fails, nothing when the slot id is [None], one score report carrying the
    record and its combined score otherwise. *)
Theorem calculate_weights_exact_trace (np : NumPy) (w : World) (v : Validator)
    (recs : list NodeData) (sim : bool) (t : trace)
    (a b c : list float) :
  reports_never_fail w ->
  recs <> [] ->
  extract_metrics recs = Ok (a, b, c) ->
  fst (calculate_weights np w v recs sim t) =
  t ++ flat_map
         (iteration_events v sim (apply_kurtosis_default np a)
            (apply_kurtosis_default np b) (apply_kurtosis_default np c))
         (enumerate recs).
Proof. apply calculate_weights_trace_of_iterations. Qed.

Lemma quiet_world_never_fails : reports_never_fail quiet_world.
Proof. intros t hk score node. reflexivity. Qed.

Lemma calculate_weights_exact_trace_witness :
  reports_never_fail quiet_world /\
  forall np,
    fst (calculate_weights np quiet_world sample_validator
           [zero_record "a" (UidInt 1); zero_record "zz" (UidInt 5);
            zero_record "b" UidNone] false []) =
    [SendScoreReport "a" 0%float (zero_record "a" (UidInt 1));
     Log ERROR (NodeNotInMetagraph "zz");
     SendScoreReport "b" 0%float (zero_record "b" UidNone)].
Proof.
  split; [exact quiet_world_never_fails|]. intros np.
  rewrite (@calculate_weights_exact_trace np quiet_world sample_validator
             [zero_record "a" (UidInt 1); zero_record "zz" (UidInt 5);
              zero_record "b" UidNone] false []
             (repeat 0%float 3) (repeat 0%float 3) (repeat 0%float 3)
             quiet_world_never_fails).
  - vm_compute. reflexivity.
  - discriminate.
  - vm_compute. reflexivity.
Defined.

(** X9: a score report is only ever sent for a record of the input, to that
    record's hotkey, and for a record that resolves to a slot id other than
    [None]: with [simulation=False] never to a hotkey that is missing from the
    registry. *)
Theorem reports_go_to_resolved_records (np : NumPy) (w : World) (v : Validator)
    (recs : list NodeData) (sim : bool) (t : trace) :
  exists new,
    fst (calculate_weights np w v recs sim t) = t ++ new /\
    forall hk score node,
      In (SendScoreReport hk score node) new ->
      In node recs /\ hk = hotkey node /\
      exists u,
        is_None u = false /\
        if sim then uid node = u
        else exists n,
            dict_get String.eqb hk (metagraph_nodes v) = Some n /\
            node_id n = u.
Proof.
  destruct recs as [|n0 recs'] eqn:Er.
  { rewrite calculate_weights_empty. exists [Log WARNING NoNodeData].
    split; [reflexivity|]. intros hk score node [H|[]]. discriminate. }
  rewrite <- Er. assert (Hne : recs <> []) by (subst; discriminate).
  destruct (extract_metrics recs) as [[[a b] c]|e] eqn:He.
  - destruct (@calculate_weights_run np w v recs sim t a b c Hne He)
      as (new & r & E & F & _).
    exists new. rewrite E. split; [reflexivity|].
    rewrite Forall_forall in F.
    intros hk score node Hin. apply F in Hin as (idx & u & Hi & -> & _ & Hs).
    apply In_enumerate in Hi. split; [exact Hi|]. split; [reflexivity|].
    apply scored_Some in Hs as [Hr Hn]. exists u. split; [exact Hn|].
    unfold resolved in Hr. destruct sim; [now inversion Hr|].
    destruct (dict_get String.eqb (hotkey node) (metagraph_nodes v)) as [n|];
      [|discriminate].
    exists n. split; [reflexivity|]. now inversion Hr.
  - rewrite (@calculate_weights_overflow np w v recs sim t e Hne He).
    exists []. rewrite app_nil_r. split; [reflexivity|]. intros ? ? ? [].
Qed.

Lemma traverse_zero (g : NodeData -> Z) (recs : list NodeData) :
  Forall (fun n => g n = 0) recs ->
  traverse (fun n => py_float (g n)) recs = Ok (map (fun _ => 0%float) recs).
Proof.
  induction 1 as [|n recs Hn _ IH]; [reflexivity|].
  cbn [traverse map]. rewrite Hn, IH. reflexivity.
Qed.

Lemma nth_zeros (A : Type) (l : list A) (idx : nat) :
  nth idx (map (fun _ => 0%float) l) 0%float = 0%float.
Proof.
  revert idx. induction l as [|x l IH]; intros [|idx]; cbn; auto.
Qed.

Lemma weights_of_values (d : list (Uid * float)) (uids : list Uid)
    (weights : list float) :
  weights_of d uids = Ok weights ->
  Forall (fun x => exists u, dict_get Uid_eqb u d = Some x) weights.
Proof.
  unfold weights_of. revert weights.
  induction uids as [|u uids IH]; intros weights H; cbn in H.
  - inversion H. constructor.
  - destruct (dict_get Uid_eqb u d) as [x|] eqn:Ex; [|discriminate].
    destruct (traverse _ uids) as [ws|]; [|discriminate].
    inversion H; subst. constructor; [now exists u | now apply IH].
Qed.

(** X10: when the three scored counters of every record are zero (nothing
    was done in the window), every weight the calculation returns is 0.0,
    whatever numpy computes. *)
Theorem idle_records_get_zero_weights (np : NumPy) (w : World) (v : Validator)
    (recs : list NodeData) (sim : bool) (t : trace)
    (uids : list Uid) (weights : list float) :
  Forall idle recs ->
  snd (calculate_weights np w v recs sim t) = Ok (uids, weights) ->
  Forall (fun x => x = 0%float) weights.
Proof.
  intros Hidle Hr.
  destruct recs as [|n0 recs'] eqn:Er.
  { rewrite calculate_weights_empty in Hr. inversion Hr. constructor. }
  rewrite <- Er in *. assert (Hne : recs <> []) by (subst; discriminate).
  set (z := map (fun _ : NodeData => 0%float) recs).
  assert (He : extract_metrics recs = Ok (z, z, z)).
  { unfold extract_metrics.
    rewrite !traverse_zero; [reflexivity| | |];
      (eapply Forall_impl; [|exact Hidle]); intros n (A & B & C); assumption. }
  destruct (@calculate_weights_run np w v recs sim t z z z Hne He)
    as (new & r & E & _ & P).
  rewrite E in Hr. cbn [snd] in Hr.
  destruct (P (or_intror (ex_intro _ _ Hr))) as [Hv _]. rewrite Hr in Hv.
  unfold finish_value in Hv.
  destruct (sorted_uids _) as [s|]; [|discriminate].
  destruct (weights_of _ s) as [ws|] eqn:Ew; [|discriminate].
  inversion Hv; subst s ws.
  apply weights_of_values in Ew.
  eapply Forall_impl; [|exact Ew]. intros x (u & Hx).
  apply pure_scores_last in Hx
    as [[Habs _]|(pre & idx & n & post & _ & _ & _ & ->)]; [discriminate|].
  unfold combined_score, apply_kurtosis_default.
  assert (Hz : forallb (fun xi => PrimFloat.eqb xi 0%float) z = true).
  { unfold z. apply forallb_forall. intros x Hx.
    apply in_map_iff in Hx as (n' & <- & _). reflexivity. }
  rewrite (apply_kurtosis_all_zero np z _ _ _ _ _ Hz), nth_zeros.
  reflexivity.
Qed.

Lemma idle_records_get_zero_weights_witness :
  Forall idle [zero_record "a" (UidInt 1); zero_record "b" (UidInt 2)] /\
  forall np,
    snd (calculate_weights np quiet_world sample_validator
           [zero_record "a" (UidInt 1); zero_record "b" (UidInt 2)] false []) =
    Ok ([UidInt 1; UidInt 2], [0%float; 0%float]) /\
    Forall (fun x => x = 0%float) [0%float; 0%float].
Proof.
  assert (Hi : Forall idle [zero_record "a" (UidInt 1); zero_record "b" (UidInt 2)])
    by (repeat constructor).
  split; [exact Hi|]. intros np.
  assert (Hr : snd (calculate_weights np quiet_world sample_validator
                 [zero_record "a" (UidInt 1); zero_record "b" (UidInt 2)]
                 false []) = Ok ([UidInt 1; UidInt 2], [0%float; 0%float]))
    by (vm_compute; reflexivity).
  split; [exact Hr|].
  exact (@idle_records_get_zero_weights np quiet_world sample_validator _ false
           [] _ _ Hi Hr).
Defined.

(** ** Slot ids that cannot be compared *)





(** ** A counter that does not fit a double *)






(** ** What the weights depend on *)





(** X14: whenever the calculation returns, in either mode and whatever the
    collaborators do, the two lists have the same length, the slot ids are
    pairwise distinct, and they are exactly the slot ids (other than [None])
    that the records resolve to. *)
Theorem returned_lists_are_well_formed (np : NumPy) (w : World) (v : Validator)
    (recs : list NodeData) (sim : bool) (t : trace)
    (uids : list Uid) (weights : list float) :
  snd (calculate_weights np w v recs sim t) = Ok (uids, weights) ->
  List.length uids = List.length weights /\
  NoDup uids /\
  forall u, In u uids <-> exists n, In n recs /\ scored v sim n = Some u.
Proof.
  intros Hr.
  destruct recs as [|n0 recs'] eqn:Er.
  { rewrite calculate_weights_empty in Hr. inversion Hr; subst.
    split; [reflexivity|]. split; [constructor|].
    intros u. split; [intros [] | intros (n & [] & _)]. }
  rewrite <- Er in *. assert (Hne : recs <> []) by (subst; discriminate).
  destruct (extract_metrics recs) as [[[a b] c]|e] eqn:He.
  2:{ rewrite (@calculate_weights_overflow np w v recs sim t e Hne He) in Hr.
      discriminate. }
  destruct (@calculate_weights_run np w v recs sim t a b c Hne He)
    as (new & r & E & _ & P).
  rewrite E in Hr. cbn [snd] in Hr.
  destruct (P (or_intror (ex_intro _ _ Hr))) as [Hv _]. rewrite Hr in Hv.
  unfold finish_value in Hv.
  destruct (sorted_uids _) as [s|] eqn:Es; [|discriminate].
  destruct (weights_of _ s) as [ws|] eqn:Ew; [|discriminate].
  inversion Hv; subst s ws. apply sorted_uids_perm in Es.
  split; [symmetry; exact (traverse_length _ _ Ew)|].
  split.
  - eapply Permutation_NoDup; [symmetry; exact Es|].
    apply pure_scores_NoDup. constructor.
  - intros u. split.
    + intros Hin. apply (Permutation_in _ Es) in Hin.
      apply pure_scores_keys in Hin as [[]|([idx n] & Hp & Hs)].
      exists n. split; [eapply In_enumerate, Hp | exact Hs].
    + intros (n & Hin & Hs). apply (Permutation_in _ (Permutation_sym Es)).
      apply pure_scores_keys. right.
      apply In_nth_error in Hin as [idx Hidx].
      exists (idx, n). split; [|exact Hs].
      exact (nth_error_enumerate_from 0 recs idx Hidx).
Qed.

Lemma returned_lists_are_well_formed_witness :
  mixed_id_records <> [] /\
  forall np,
    snd (calculate_weights np quiet_world sample_validator mixed_id_records
           true []) = Ok ([UidInt 9; UidStr "10"], [0%float; 0%float]) /\
    (List.length [UidInt 9; UidStr "10"] = List.length [0%float; 0%float] /\
     NoDup [UidInt 9; UidStr "10"] /\
     forall u, In u [UidInt 9; UidStr "10"] <->
               exists n, In n mixed_id_records /\
                         scored sample_validator true n = Some u).
Proof.
  split; [discriminate|]. intros np.
  assert (Hr : snd (calculate_weights np quiet_world sample_validator
                      mixed_id_records true []) =
               Ok ([UidInt 9; UidStr "10"], [0%float; 0%float]))
    by (vm_compute; reflexivity).
  split; [exact Hr|].
  exact (@returned_lists_are_well_formed np quiet_world sample_validator
           mixed_id_records true [] _ _ Hr).
Defined.

(** ** The score transforms *)



(** ** Telemetry of an identifier the registry does not know *)

(** X16: in a live calculation over the output of the delta engine, with a
    node manager that never fails, an identifier that the store lists and the
    registry does not hold is logged as an error, and no score report is
    sent to it. *)
Theorem unknown_identifier_is_logged_not_reported (np : NumPy) (w : World)
    (v : Validator) (t : trace) (hk : string) :
  reports_never_fail w ->
  (exists m, extract_metrics (_get_delta_node_data v) = Ok m) ->
  In hk (get_all_hotkeys_with_telemetry (telemetry_storage v)) ->
  dict_get String.eqb hk (metagraph_nodes v) = None ->
  exists new,
    fst (calculate_weights np w v (_get_delta_node_data v) false t) = t ++ new /\
    In (Log ERROR (NodeNotInMetagraph hk)) new /\
    filter (fun e => match e with
                     | SendScoreReport hk' _ _ => String.eqb hk' hk
                     | _ => false
                     end) new = [].
Proof.
  intros Hw [[[a b] c] He] Hl Hn.
  set (d := record_for (telemetry_storage v) (all_hotkeys_of (metagraph_nodes v)) hk).
  assert (Hd : In d (_get_delta_node_data v)).
  { apply in_delta_node_data. left. unfold d. rewrite record_for_hotkey.
    now split. }
  assert (Hne : _get_delta_node_data v <> []) by (intros E; rewrite E in Hd; destruct Hd).
  rewrite (@calculate_weights_trace_of_iterations np w v
             (_get_delta_node_data v) false t a b c Hw Hne He).
  eexists. split; [reflexivity|]. split.
  - apply In_nth_error in Hd as [idx Hidx].
    apply in_flat_map. exists (idx, d). split.
    + exact (nth_error_enumerate_from 0 _ idx Hidx).
    + unfold iteration_events, resolved. cbn [fst snd].
      unfold d at 1. rewrite record_for_hotkey, Hn. cbn. left.
      unfold d. now rewrite record_for_hotkey.
  - induction (enumerate (_get_delta_node_data v)) as [|[idx n] l IH];
      [reflexivity|].
    cbn [flat_map]. rewrite filter_app, IH, app_nil_r.
    unfold iteration_events, resolved. cbn [fst snd].
    destruct (dict_get String.eqb (hotkey n) (metagraph_nodes v)) as [node|] eqn:En;
      cbn [option_map]; [|reflexivity].
    destruct (is_None (node_id node)); [reflexivity|]. cbn [filter].
    destruct (String.eqb_spec (hotkey n) hk) as [E|_]; [|reflexivity].
    rewrite E in En. congruence.
Qed.

Lemma unknown_identifier_is_logged_not_reported_witness :
  reports_never_fail quiet_world /\
  dict_get String.eqb "ghost" (metagraph_nodes haunted_validator) = None /\
  forall np,
    fst (calculate_weights np quiet_world haunted_validator
           (_get_delta_node_data haunted_validator) false []) =
    [Log ERROR (NodeNotInMetagraph "ghost");
     SendScoreReport "val" 0%float (zero_record "val" (UidInt 9))] /\
    exists new,
      fst (calculate_weights np quiet_world haunted_validator
             (_get_delta_node_data haunted_validator) false []) = [] ++ new /\
      In (Log ERROR (NodeNotInMetagraph "ghost")) new /\
      filter (fun e => match e with
                       | SendScoreReport hk' _ _ => String.eqb hk' "ghost"
                       | _ => false
                       end) new = [].
Proof.
  split; [exact quiet_world_never_fails|]. split; [reflexivity|]. intros np.
  split; [vm_compute; reflexivity|].
  apply (@unknown_identifier_is_logged_not_reported np quiet_world
           haunted_validator [] "ghost" quiet_world_never_fails).
  - eexists. vm_compute. reflexivity.
  - now left.
  - reflexivity.
Defined.
